(** * A shallow embedding of the in-memory reference store (package
    [dummystore]) and of the document-store query translation (package
    [couchstore], file [queries.go]).

    Go maps are finite maps ([gmap]) and Go sets ([map[string]struct{}])
    are finite sets ([gset]); the readers-writer mutex is not modelled:
    every operation is one atomic state transformer.  Sends on the event
    channels are collected, in order, in the [sent] trace of an
    operation's outcome. *)

From Stdlib Require Import QArith Lqa Ascii String.
From Stdlib Require Import OrderedTypeEx.
From stdpp Require Import gmap strings list fin_maps sorting.

Set Warnings "-register-all".
Open Scope string_scope.

(** ** Go values *)

(** A Go slice, which is either [nil] or a (possibly empty) sequence. *)
Inductive slice (A : Type) : Type :=
  | nil_slice
  | mk_slice (elems : list A).
Arguments nil_slice {A}.
Arguments mk_slice {A} elems.

Definition slice_elems {A} (s : slice A) : list A :=
  match s with
  | nil_slice => []
  | mk_slice l => l
  end.

Definition is_nil_slice {A} (s : slice A) : bool :=
  match s with
  | nil_slice => true
  | mk_slice _ => false
  end.

(** Modelled from the spec: the error kinds of section 7 (the Go error
    values themselves are built outside the files embedded here). *)
Inductive error : Type :=
  | ValidationError (msg : string)
  | Conflict
  | BackendError (msg : string)
  | Internal (msg : string).

(** ** Package [types] *)

Module types.

(** Modelled from the spec: [types.Bytes32], a fixed-width hash value
    "rendered lowercase-hex for string IDs". *)
Definition Bytes32 : Type := list Byte.byte.

Definition hexDigit (n : N) : ascii :=
  match n with
  | 0%N => "0"%char
  | 1%N => "1"%char
  | 2%N => "2"%char
  | 3%N => "3"%char
  | 4%N => "4"%char
  | 5%N => "5"%char
  | 6%N => "6"%char
  | 7%N => "7"%char
  | 8%N => "8"%char
  | 9%N => "9"%char
  | 10%N => "a"%char
  | 11%N => "b"%char
  | 12%N => "c"%char
  | 13%N => "d"%char
  | 14%N => "e"%char
  | _ => "f"%char
  end.

Definition hexByte (b : Byte.byte) : string :=
  let n := Byte.to_N b in
  String (hexDigit (n / 16)) (String (hexDigit (n mod 16)) EmptyString).

Fixpoint Bytes32_String (b : Bytes32) : string :=
  match b with
  | [] => EmptyString
  | x :: rest => hexByte x +:+ Bytes32_String rest
  end.

End types.

(** ** The segment model (package [cs]) *)

Module cs.
Import types.

(** Modelled from the spec: an evidence is "tagged by [(backend,
    provider)]"; the attestation itself is an opaque payload. *)
Record Evidence : Type := {
  ev_backend : string;
  ev_provider : string;
  ev_proof : string;
}.

(** [cs.Evidences] is a slice of evidences. *)
Definition Evidences : Type := slice Evidence.

Record SegmentMeta : Type := {
  meta_Evidences : Evidences;
  meta_LinkHash : string;
}.

(** Modelled from the spec: the link of section 3.  The state is an opaque
    payload; [prevLinkHash] is absent on a root link; a reference is the
    ingress shape of [client.SegmentRef], whose three parts may each be
    missing. *)
Inductive Link : Type := Build_Link {
  link_state : string;
  link_mapId : string;
  link_process : string;
  link_prevLinkHash : option string;
  link_tags : list string;
  link_priority : option Q;
  link_refs : list SegmentRef;
}
with SegmentRef : Type := Build_SegmentRef {
  ref_Process : string;
  ref_LinkHash : option Bytes32;
  ref_Segment : option Segment;
}
with Segment : Type := Build_Segment {
  seg_Link : Link;
  seg_Meta : SegmentMeta;
}.

Definition GetMapID (l : Link) : string := link_mapId l.
Definition GetProcess (l : Link) : string := link_process l.
Definition GetPrevLinkHash (l : Link) : option string := link_prevLinkHash l.
Definition GetTags (l : Link) : list string := link_tags l.
Definition GetPriority (l : Link) : option Q := link_priority l.
Definition GetLinkHashString (s : Segment) : string := meta_LinkHash (seg_Meta s).

Definition sameSource (e1 e2 : Evidence) : bool :=
  bool_decide (ev_backend e1 = ev_backend e2) &&
  bool_decide (ev_provider e1 = ev_provider e2).

(** Modelled from the spec: [cs.Evidences.AddEvidence], "at most one
    evidence per [(backend, provider)] -- second insertion fails" with a
    [Conflict]; otherwise the evidence is appended. *)
Definition Evidences_AddEvidence (e : Evidences) (evidence : Evidence)
  : error + Evidences :=
  if existsb (sameSource evidence) (slice_elems e)
  then inl Conflict
  else inr (mk_slice (slice_elems e ++ [evidence])).

(** Modelled from the spec: the order of [cs.SegmentSlice], "sorted by
    [(priority desc, linkHash asc)] where missing priority sorts last". *)
Definition priorityGt (p1 p2 : option Q) : bool :=
  match p1, p2 with
  | Some x, Some y => match (y ?= x)%Q with Lt => true | _ => false end
  | Some _, None => true
  | None, _ => false
  end.

Definition Less (s1 s2 : Segment) : bool :=
  let p1 := GetPriority (seg_Link s1) in
  let p2 := GetPriority (seg_Link s2) in
  if priorityGt p1 p2 then true
  else if priorityGt p2 p1 then false
  else String.ltb (GetLinkHashString s1) (GetLinkHashString s2).

(** [notAfter s1 s2]: [s2] does not sort strictly before [s1]. *)
Definition notAfter (s1 s2 : Segment) : Prop := Less s2 s1 = false.

#[global] Instance notAfter_dec s1 s2 : Decision (notAfter s1 s2).
Proof. unfold notAfter. apply _. Defined.

(** [sort.Sort] on a segment slice: a sorting function for [Less]. *)
Definition sortSegments (l : list Segment) : list Segment :=
  merge_sort notAfter l.

End cs.

(** ** Filters, pagination and events (package [store]) *)

Module store.
Import types cs.

Record Pagination : Type := {
  Offset : Z;
  Limit : Z;
}.

Record SegmentFilter : Type := {
  filter_Pagination : Pagination;
  MapIDs : list string;
  Process : string;
  LinkHashes : list string;
  PrevLinkHash : option string;
  Tags : list string;
}.

(** Modelled from the spec: the [prevLinkHash] predicate, "absent = don't
    filter; empty-string pointer = match links whose [prevLinkHash] is
    unset; non-empty = exact match". *)
Definition matchPrevLinkHash (f : option string) (l : Link) : bool :=
  match f with
  | None => true
  | Some p =>
      if bool_decide (p = "")
      then bool_decide (GetPrevLinkHash l = None)
      else bool_decide (GetPrevLinkHash l = Some p)
  end.

Definition matchMapIDs (ids : list string) (l : Link) : bool :=
  match ids with
  | [] => true
  | _ => bool_decide (GetMapID l ∈ ids)
  end.

Definition matchProcess (p : string) (l : Link) : bool :=
  bool_decide (p = "") || bool_decide (p = GetProcess l).

Definition matchTags (ts : list string) (l : Link) : bool :=
  forallb (λ t, bool_decide (t ∈ GetTags l)) ts.

Definition matchLinkHashes (hs : list string) (linkHash : string) : bool :=
  match hs with
  | [] => true
  | _ => bool_decide (linkHash ∈ hs)
  end.

(** Modelled from the spec: [store.SegmentFilter.Match], "a segment
    matches iff every set filter field matches; an unset field imposes no
    constraint".  The argument is a pointer; a nil segment matches no
    filter (the store never passes one: see [reachable_linked]). *)
Definition Match (filter : SegmentFilter) (segment : option Segment) : bool :=
  match segment with
  | None => false
  | Some s =>
      matchPrevLinkHash (PrevLinkHash filter) (seg_Link s) &&
      matchLinkHashes (LinkHashes filter) (GetLinkHashString s) &&
      matchProcess (Process filter) (seg_Link s) &&
      matchMapIDs (MapIDs filter) (seg_Link s) &&
      matchTags (Tags filter) (seg_Link s)
  end.

(** Modelled from the spec: [store.Pagination.PaginateSegments],
    "[result = sorted[offset : offset+limit]], clamping at bounds". *)
Definition PaginateSegments {A} (p : Pagination) (a : list A) : list A :=
  take (Z.to_nat (Limit p)) (drop (Z.to_nat (Offset p)) a).


(** An event channel is known by its identity; the same channel may be
    registered more than once. *)
Definition Chan : Type := nat.

(** Modelled from the spec: the two event kinds of section 4.6,
    [SavedLinks{links}] and [SavedEvidences{additions}]. *)
Inductive Event : Type :=
  | SavedLinks (saved : list Link)
  | SavedEvidences (additions : gmap string Evidence).

Definition NewSavedLinks (link : Link) : Event := SavedLinks [link].

Definition NewSavedEvidences : Event := SavedEvidences ∅.

Definition AddSavedEvidence (e : Event) (linkHash : Bytes32) (evidence : Evidence)
  : Event :=
  match e with
  | SavedEvidences m => SavedEvidences (<[Bytes32_String linkHash := evidence]> m)
  | SavedLinks ls => SavedLinks ls
  end.

(** One send [c <- event]. *)
Record Send : Type := {
  send_chan : Chan;
  send_event : Event;
}.

(** The loop [for _, c := range eventChans { c <- event }]. *)
Definition publish (eventChans : list Chan) (event : Event) : list Send :=
  (λ c, {| send_chan := c; send_event := event |}) <$> eventChans.

(** The events channel [c] has received, in order. *)
Definition received (c : Chan) (sends : list Send) : list Event :=
  send_event <$> filter (λ s, send_chan s = c) sends.

(** [store.MapFilter], as [GetMapIDs] and [NewMapQuery] use it. *)
Record MapFilter : Type := {
  mapfilter_Pagination : Pagination;
  mapfilter_Process : string;
}.

End store.

(** ** The store (package [dummystore]) *)

Module dummystore.
Import types cs store.

Record Config : Type := {
  Version : string;
  Commit : string;
}.

Record DummyStore : Type := {
  config : Config;
  eventChans : list Chan;
  links : gmap string Link;
  evidences : gmap string Evidences;
  values : gmap string (list Byte.byte);
  maps : gmap string (gset string);
}.

(** What an operation leaves behind: the store, the returned values and
    the sends it made on the event channels. *)
Record Outcome (A : Type) : Type := {
  store_after : DummyStore;
  returned : A;
  sent : list Send;
}.
Arguments store_after {A} _.
Arguments returned {A} _.
Arguments sent {A} _.

Definition New (c : Config) : DummyStore :=
  {| config := c; eventChans := []; links := ∅; evidences := ∅;
     values := ∅; maps := ∅ |}.

Definition AddStoreEventChannel (a : DummyStore) (eventChan : Chan) : DummyStore :=
  {| config := config a; eventChans := eventChans a ++ [eventChan];
     links := links a; evidences := evidences a; values := values a;
     maps := maps a |}.

Definition createKey (k : list Byte.byte) : string := Bytes32_String k.

Section Store.

(** [cs.Link.Hash]: the digest of the canonical JSON of the link, or the
    error of the serialiser.  It is kept abstract. *)
Variable Hash : Link → error + Bytes32.

(** The order in which [range] visits the keys of a Go map is not
    specified; [rangeKeys] is the order the run-time picks. *)
Variable rangeKeys : gset string → list string.

Definition createLink (a : DummyStore) (link : Link)
  : Outcome (option Bytes32 * option error) :=
  match Hash link with
  | inl err => {| store_after := a; returned := (None, Some err); sent := [] |}
  | inr linkHash =>
      let linkHashStr := Bytes32_String linkHash in
      let links' := <[linkHashStr := link]> (links a) in
      let mapID := GetMapID link in
      let maps' :=
        match maps a !! mapID with
        | Some _ => maps a
        | None => <[mapID := ∅]> (maps a)
        end in
      let maps'' := alter (λ s, s ∪ {[linkHashStr]}) mapID maps' in
      let linkEvent := NewSavedLinks link in
      {| store_after :=
           {| config := config a; eventChans := eventChans a;
              links := links'; evidences := evidences a;
              values := values a; maps := maps'' |};
         returned := (Some linkHash, None);
         sent := publish (eventChans a) linkEvent |}
  end.

Definition CreateLink (a : DummyStore) (link : Link)
  : Outcome (option Bytes32 * option error) :=
  createLink a link.

Definition addEvidence (a : DummyStore) (linkHash : string) (evidence : Evidence)
  : DummyStore * option error :=
  let currentEvidences :=
    match evidences a !! linkHash with
    | Some e => e
    | None => mk_slice []
    end in
  match Evidences_AddEvidence currentEvidences evidence with
  | inl err => (a, Some err)
  | inr currentEvidences' =>
      ({| config := config a; eventChans := eventChans a;
          links := links a;
          evidences := <[linkHash := currentEvidences']> (evidences a);
          values := values a; maps := maps a |}, None)
  end.

Definition AddEvidence (a : DummyStore) (linkHash : Bytes32) (evidence : Evidence)
  : Outcome (option error) :=
  match addEvidence a (Bytes32_String linkHash) evidence with
  | (a', Some err) => {| store_after := a'; returned := Some err; sent := [] |}
  | (a', None) =>
      let evidenceEvent :=
        AddSavedEvidence NewSavedEvidences linkHash evidence in
      {| store_after := a'; returned := None;
         sent := publish (eventChans a') evidenceEvent |}
  end.

Definition getSegment (a : DummyStore) (linkHash : string)
  : option Segment * option error :=
  match links a !! linkHash with
  | None => (None, None)
  | Some link =>
      let segment :=
        {| seg_Link := link;
           seg_Meta := {| meta_Evidences := mk_slice [];
                          meta_LinkHash := linkHash |} |} in
      match evidences a !! linkHash with
      | Some evs =>
          (Some {| seg_Link := seg_Link segment;
                   seg_Meta := {| meta_Evidences := evs;
                                  meta_LinkHash := meta_LinkHash (seg_Meta segment) |} |},
           None)
      | None => (Some segment, None)
      end
  end.

Definition GetSegment (a : DummyStore) (linkHash : Bytes32)
  : option Segment * option error :=
  getSegment a (Bytes32_String linkHash).

Definition GetEvidences (a : DummyStore) (linkHash : Bytes32)
  : option Evidences * option error :=
  (evidences a !! Bytes32_String linkHash, None).

(** The loop of [findHashesSegments]: [segments] is the slice built so
    far; an error of [getSegment] ends the loop. *)
Fixpoint scanHashes (a : DummyStore) (filter : SegmentFilter)
    (linkHashes : list string) (segments : list Segment)
  : list Segment * option error :=
  match linkHashes with
  | [] => (segments, None)
  | linkHash :: rest =>
      match getSegment a linkHash with
      | (_, Some err) => ([], Some err)
      | (segment, None) =>
          if Match filter segment
          then match segment with
               | Some s => scanHashes a filter rest (segments ++ [s])
               | None => scanHashes a filter rest segments
               end
          else scanHashes a filter rest segments
      end
  end.

Definition findHashesSegments (a : DummyStore) (linkHashes : gset string)
    (filter : SegmentFilter) : list Segment * option error :=
  match scanHashes a filter (rangeKeys linkHashes) [] with
  | (_, Some err) => ([], Some err)
  | (segments, None) =>
      (PaginateSegments (filter_Pagination filter) (sortSegments segments), None)
  end.

(** The union loop of [FindSegments] over the listed maps. *)
Fixpoint unionMaps (a : DummyStore) (mapIDs : list string)
    (linkHashes : gset string) : gset string :=
  match mapIDs with
  | [] => linkHashes
  | mapID :: rest =>
      match maps a !! mapID with
      | Some l => unionMaps a rest (linkHashes ∪ l)
      | None => unionMaps a rest linkHashes
      end
  end.

Definition FindSegments (a : DummyStore) (filter : SegmentFilter)
  : list Segment * option error :=
  let linkHashes :=
    if bool_decide (length (MapIDs filter) = 0%nat) || bool_decide (is_Some (PrevLinkHash filter))
    then dom (links a)
    else unionMaps a (MapIDs filter) ∅ in
  findHashesSegments a linkHashes filter.

Definition GetValue (a : DummyStore) (key : list Byte.byte)
  : option (list Byte.byte) * option error :=
  (values a !! createKey key, None).

Definition setValue (a : DummyStore) (key value : list Byte.byte)
  : DummyStore * option error :=
  ({| config := config a; eventChans := eventChans a; links := links a;
      evidences := evidences a;
      values := <[createKey key := value]> (values a); maps := maps a |}, None).

Definition deleteValue (a : DummyStore) (key : list Byte.byte)
  : DummyStore * (option (list Byte.byte) * option error) :=
  let k := createKey key in
  match values a !! k with
  | None => (a, (None, None))
  | Some value =>
      ({| config := config a; eventChans := eventChans a; links := links a;
          evidences := evidences a; values := delete k (values a);
          maps := maps a |}, (Some value, None))
  end.

(** The reading of the spec against which [FindSegments] is compared:
    every stored segment is materialised and kept iff it satisfies the
    whole filter; the result is sorted and paginated. *)
Definition allSegments (a : DummyStore) : list Segment :=
  omap (λ h, (getSegment a h).1) (elements (dom (links a))).

Definition FindSegments_spec (a : DummyStore) (filter : SegmentFilter)
  : list Segment :=
  PaginateSegments (filter_Pagination filter)
    (sortSegments (List.filter (λ s, Match filter (Some s)) (allSegments a))).

End Store.

(** The name and the description set in the store's information. *)
Definition Name : string := "dummy".
Definition Description : string := "Indigo's Dummy Store".

Record Info : Type := {
  info_Name : string;
  info_Description : string;
  info_Version : string;
  info_Commit : string;
}.

Definition GetInfo (a : DummyStore) : option Info * option error :=
  (Some {| info_Name := Name; info_Description := Description;
           info_Version := Version (config a);
           info_Commit := Commit (config a) |}, None).

(** [sort.Strings]: ascending, byte by byte. *)
Definition stringLe (s1 s2 : string) : Prop := String.leb s1 s2 = true.

#[global] Instance stringLe_dec s1 s2 : Decision (stringLe s1 s2).
Proof. unfold stringLe. apply _. Defined.

Definition sortStrings (l : list string) : list string :=
  merge_sort stringLe l.

Section MapIDs.

Variable rangeKeys : gset string → list string.

(** [store.MapFilter.MatchLink] and [store.Pagination.PaginateStrings]
    are kept abstract. *)
Variable MatchLink : MapFilter → Link → bool.
Variable PaginateStrings : Pagination → list string → list string.

(** The inner loop of [GetMapIDs]: it stops at the first hash whose
    link exists and matches. *)
Fixpoint hasMatchingLink (a : DummyStore) (filter : MapFilter)
    (linkHashes : list string) : bool :=
  match linkHashes with
  | [] => false
  | linkHash :: rest =>
      match links a !! linkHash with
      | Some link =>
          if MatchLink filter link then true
          else hasMatchingLink a filter rest
      | None => hasMatchingLink a filter rest
      end
  end.

(** The outer loop of [GetMapIDs], over the keys of [a.maps]. *)
Fixpoint collectMapIDs (a : DummyStore) (filter : MapFilter)
    (keys : list string) (mapIDs : list string) : list string :=
  match keys with
  | [] => mapIDs
  | mapID :: rest =>
      match maps a !! mapID with
      | Some linkHashes =>
          if hasMatchingLink a filter (rangeKeys linkHashes)
          then collectMapIDs a filter rest (mapIDs ++ [mapID])
          else collectMapIDs a filter rest mapIDs
      | None => collectMapIDs a filter rest mapIDs
      end
  end.

(** The value of [mapIDs] after [sort.Strings(mapIDs)]. *)
Definition sortedMapIDs (a : DummyStore) (filter : MapFilter) : list string :=
  sortStrings (collectMapIDs a filter (rangeKeys (dom (maps a))) []).

Definition GetMapIDs (a : DummyStore) (filter : MapFilter)
  : list string * option error :=
  (PaginateStrings (mapfilter_Pagination filter) (sortedMapIDs a filter), None).

End MapIDs.

Definition SetValue (a : DummyStore) (key value : list Byte.byte)
  : DummyStore * option error :=
  setValue a key value.

Definition DeleteValue (a : DummyStore) (key : list Byte.byte)
  : DummyStore * (option (list Byte.byte) * option error) :=
  deleteValue a key.

End dummystore.

(** ** The document-store query translation (package [couchstore]) *)

Module couchstore.
Import types.

(** The value [json.Marshal] serialises: objects keep the order of the
    struct fields; the concrete text (escapes, digits) is not modelled. *)
Inductive JSON : Type :=
  | JNull
  | JBool (b : bool)
  | JNumber (n : Z)
  | JString (s : string)
  | JArray (items : list JSON)
  | JObject (fields : list (string * JSON)).

(** A field tagged [omitempty] is left out when it holds the zero value of
    its type: [""], [0], a nil pointer, an empty slice. *)
Definition omitemptyString (name : string) (v : string) : list (string * JSON) :=
  if bool_decide (v = "") then [] else [(name, JString v)].

Definition omitemptyInt (name : string) (v : Z) : list (string * JSON) :=
  if bool_decide (v = 0%Z) then [] else [(name, JNumber v)].

Definition omitemptyPtr {A} (name : string) (enc : A → JSON) (v : option A)
  : list (string * JSON) :=
  match v with
  | None => []
  | Some x => [(name, enc x)]
  end.

Definition omitemptyStrings (name : string) (v : list string)
  : list (string * JSON) :=
  match v with
  | [] => []
  | _ => [(name, JArray (JString <$> v))]
  end.

(** The first field called [name] of a JSON object. *)
Definition jsonField (name : string) (j : JSON) : option JSON :=
  match j with
  | JObject fields => snd <$> List.find (λ kv, bool_decide (kv.1 = name)) fields
  | _ => None
  end.

Record LinkHashIn : Type := { LinkHashes : list string }.
Record MapIdsIn : Type := { MapIds : list string }.
Record TagsAll : Type := { Tags : list string }.

Record PrevLinkHash : Type := {
  Exists : option bool;
  Equals : string;
}.

Record LinkSelector : Type := {
  sel_ObjectType : string;
  sel_PrevLinkHash : option PrevLinkHash;
  sel_Process : string;
  sel_MapIds : option MapIdsIn;
  sel_Tags : option TagsAll;
  sel_LinkHash : option LinkHashIn;
}.

Record LinkQuery : Type := {
  Selector : LinkSelector;
  Limit : Z;
  Skip : Z;
}.

(** Modelled from the spec: the constant [objectTypeLink], "[docType =
    "link"] always". *)
Definition objectTypeLink : string := "link".

Definition marshalLinkHashIn (v : LinkHashIn) : JSON :=
  JObject (omitemptyStrings "$in" (LinkHashes v)).

Definition marshalMapIdsIn (v : MapIdsIn) : JSON :=
  JObject (omitemptyStrings "$in" (MapIds v)).

Definition marshalTagsAll (v : TagsAll) : JSON :=
  JObject (omitemptyStrings "$all" (Tags v)).

Definition marshalPrevLinkHash (v : PrevLinkHash) : JSON :=
  JObject (omitemptyPtr "$exists" JBool (Exists v) ++
           omitemptyString "$eq" (Equals v)).

Definition marshalLinkSelector (v : LinkSelector) : JSON :=
  JObject ([("docType", JString (sel_ObjectType v))] ++
           omitemptyPtr "link.meta.prevLinkHash" marshalPrevLinkHash (sel_PrevLinkHash v) ++
           omitemptyString "link.meta.process" (sel_Process v) ++
           omitemptyPtr "link.meta.mapId" marshalMapIdsIn (sel_MapIds v) ++
           omitemptyPtr "link.meta.tags" marshalTagsAll (sel_Tags v) ++
           omitemptyPtr "_id" marshalLinkHashIn (sel_LinkHash v)).

(** [Selector] is a struct, which [omitempty] never leaves out. *)
Definition marshalLinkQuery (v : LinkQuery) : JSON :=
  JObject ([("selector", marshalLinkSelector (Selector v))] ++
           omitemptyInt "limit" (Limit v) ++
           omitemptyInt "skip" (Skip v)).

Definition segmentSelector (filter : store.SegmentFilter) : LinkSelector :=
  {| sel_ObjectType := objectTypeLink;
     sel_PrevLinkHash :=
       match store.PrevLinkHash filter with
       | Some p =>
           if bool_decide (p = "")
           then Some {| Exists := Some false; Equals := "" |}
           else Some {| Exists := None; Equals := p |}
       | None => None
       end;
     sel_Process :=
       if bool_decide (store.Process filter ≠ "") then store.Process filter else "";
     sel_MapIds :=
       if bool_decide (0 < length (store.MapIDs filter))%nat
       then Some {| MapIds := store.MapIDs filter |} else None;
     sel_Tags :=
       if bool_decide (0 < length (store.Tags filter))%nat
       then Some {| Tags := store.Tags filter |} else None;
     sel_LinkHash :=
       if bool_decide (0 < length (store.LinkHashes filter))%nat
       then Some {| LinkHashes := store.LinkHashes filter |} else None |}.

Definition NewSegmentQuery (filter : store.SegmentFilter)
  : option JSON * option error :=
  let linkSelector := segmentSelector filter in
  let linkQuery :=
    {| Selector := linkSelector;
       Limit := store.Limit (store.filter_Pagination filter);
       Skip := store.Offset (store.filter_Pagination filter) |} in
  (Some (marshalLinkQuery linkQuery), None).

(** The selector on [link.meta.prevLinkHash] carried by a query, if any. *)
Definition prevLinkHashSelector (query : option JSON) : option JSON :=
  q ← query; s ← jsonField "selector" q; jsonField "link.meta.prevLinkHash" s.

(** The [limit] carried by a query, if any. *)
Definition queryLimit (query : option JSON) : option JSON :=
  q ← query; jsonField "limit" q.

Record MapSelector : Type := {
  mapsel_ObjectType : string;
  mapsel_Process : string;
}.

Record MapQuery : Type := {
  mapquery_Selector : MapSelector;
  mapquery_Limit : Z;
  mapquery_Skip : Z;
}.

(** Modelled from the spec: the constant [objectTypeMap], "map queries
    filter on [{docType:"map", process}]". *)
Definition objectTypeMap : string := "map".

Definition marshalMapSelector (v : MapSelector) : JSON :=
  JObject ([("docType", JString (mapsel_ObjectType v))] ++
           omitemptyString "process" (mapsel_Process v)).

Definition marshalMapQuery (v : MapQuery) : JSON :=
  JObject ([("selector", marshalMapSelector (mapquery_Selector v))] ++
           omitemptyInt "limit" (mapquery_Limit v) ++
           omitemptyInt "skip" (mapquery_Skip v)).

Definition NewMapQuery (filter : store.MapFilter)
  : option JSON * option error :=
  let mapSelector :=
    {| mapsel_ObjectType := objectTypeMap;
       mapsel_Process := store.mapfilter_Process filter |} in
  let mapQuery :=
    {| mapquery_Selector := mapSelector;
       mapquery_Limit := store.Limit (store.mapfilter_Pagination filter);
       mapquery_Skip := store.Offset (store.mapfilter_Pagination filter) |} in
  (Some (marshalMapQuery mapQuery), None).

End couchstore.

(** ** The agent client (package [client]) *)

Module client.
Import types cs store dummystore.

(** Modelled from the spec: the message of the reference shape
    validation, "any other partial shape MUST be rejected at ingress with
    the exact message [missing segment or (process and linkHash)]". *)
Definition errMissingRef : string := "missing segment or (process and linkHash)".

(** Modelled from the spec: "refs are either full segments or [(process,
    linkHash)] pairs". *)
Definition wellFormedRef (r : SegmentRef) : bool :=
  match ref_Segment r with
  | Some _ => true
  | None =>
      negb (bool_decide (ref_Process r = "")) &&
      bool_decide (is_Some (ref_LinkHash r))
  end.

Definition validateRefs (refs : list SegmentRef) : option error :=
  if forallb wellFormedRef refs then None
  else Some (ValidationError errMissingRef).

Section CreateMap.

Variable Hash : Link → error + Bytes32.

(** The [init] action of the process, which builds the root link of the
    new map from the references and the arguments, or fails. *)
Variable init : string → list SegmentRef → list string → error + Link.

(** Modelled from the spec: [CreateMap(process, refs, args...)], of
    which only the test cases are in the sources.  The references are
    checked at ingress, before anything else; then the root link is
    built and saved in the store. *)
Definition CreateMap (a : DummyStore) (process : string)
    (refs : list SegmentRef) (args : list string)
  : Outcome (option Segment * option error) :=
  match validateRefs refs with
  | Some err => {| store_after := a; returned := (None, Some err); sent := [] |}
  | None =>
      match init process refs args with
      | inl err => {| store_after := a; returned := (None, Some err); sent := [] |}
      | inr link =>
          let created := createLink Hash a link in
          match returned created with
          | (Some linkHash, None) =>
              {| store_after := store_after created;
                 returned := getSegment (store_after created) (Bytes32_String linkHash);
                 sent := sent created |}
          | (_, err) =>
              {| store_after := store_after created;
                 returned := (None, err);
                 sent := sent created |}
          end
      end
  end.

End CreateMap.

End client.

(** ** The mock adapter (package [storetesting]) *)

Module storetesting.
Import types cs store.

(** Go's [int] on a 64-bit platform: [wrapInt] is the value that is kept
    after an operation. *)
Definition wrapInt (z : Z) : Z := ((z + 2 ^ 63) mod 2 ^ 64 - 2 ^ 63)%Z.

Section Mocks.

(** The dynamic type of the value [GetInfo] returns, and the filter type
    [store.Filter], are not in the sources embedded here. *)
Variable Any : Type.
Variable Filter : Type.

(** The mock of a function of one argument: the six structs
    [MockAddDidSaveChannel], [MockSaveSegment], [MockGetSegment],
    [MockDeleteSegment], [MockFindSegments] and [MockGetMapIDs] have the
    same four fields.  The argument is a pointer or a channel, hence may
    be nil; [Fn] is taken to be a function without effects. *)
Record Mock (A R : Type) : Type := {
  CalledCount : Z;
  CalledWith : list (option A);
  LastCalledWith : option A;
  Fn : option (option A → R);
}.
Arguments CalledCount {A R} _.
Arguments CalledWith {A R} _.
Arguments LastCalledWith {A R} _.
Arguments Fn {A R} _.

Record MockGetInfo : Type := {
  GetInfo_CalledCount : Z;
  GetInfo_Fn : option (option Any * option error);
}.

Definition MockAddDidSaveChannel : Type := Mock Chan unit.
Definition MockSaveSegment : Type := Mock Segment (option error).
Definition MockGetSegment : Type := Mock Bytes32 (option Segment * option error).
Definition MockDeleteSegment : Type := Mock Bytes32 (option Segment * option error).
Definition MockFindSegments : Type := Mock Filter (slice Segment * option error).
Definition MockGetMapIDs : Type := Mock Pagination (slice string * option error).

Record MockAdapter : Type := {
  mockGetInfo : MockGetInfo;
  mockAddDidSaveChannel : MockAddDidSaveChannel;
  mockSaveSegment : MockSaveSegment;
  mockGetSegment : MockGetSegment;
  mockDeleteSegment : MockDeleteSegment;
  mockFindSegments : MockFindSegments;
  mockGetMapIDs : MockGetMapIDs;
}.

(** The three statements that open every method but [GetInfo]:
    [CalledCount++], [CalledWith = append(CalledWith, x)],
    [LastCalledWith = x]. *)
Definition record {A R} (m : Mock A R) (x : option A) : Mock A R :=
  {| CalledCount := wrapInt (CalledCount m + 1);
     CalledWith := CalledWith m ++ [x];
     LastCalledWith := x;
     Fn := Fn m |}.

(** [if Fn != nil { return Fn(x) }; return zero]. *)
Definition answer {A R} (m : Mock A R) (x : option A) (zero : R) : R :=
  match Fn m with
  | Some fn => fn x
  | None => zero
  end.

Definition GetInfo (a : MockAdapter) : MockAdapter * (option Any * option error) :=
  let m := mockGetInfo a in
  ({| mockGetInfo :=
        {| GetInfo_CalledCount := wrapInt (GetInfo_CalledCount m + 1);
           GetInfo_Fn := GetInfo_Fn m |};
      mockAddDidSaveChannel := mockAddDidSaveChannel a;
      mockSaveSegment := mockSaveSegment a;
      mockGetSegment := mockGetSegment a;
      mockDeleteSegment := mockDeleteSegment a;
      mockFindSegments := mockFindSegments a;
      mockGetMapIDs := mockGetMapIDs a |},
   match GetInfo_Fn m with
   | Some result => result
   | None => (None, None)
   end).

Definition AddDidSaveChannel (a : MockAdapter) (saveChan : option Chan)
  : MockAdapter * unit :=
  ({| mockGetInfo := mockGetInfo a;
      mockAddDidSaveChannel := record (mockAddDidSaveChannel a) saveChan;
      mockSaveSegment := mockSaveSegment a;
      mockGetSegment := mockGetSegment a;
      mockDeleteSegment := mockDeleteSegment a;
      mockFindSegments := mockFindSegments a;
      mockGetMapIDs := mockGetMapIDs a |},
   answer (mockAddDidSaveChannel a) saveChan tt).

Definition SaveSegment (a : MockAdapter) (segment : option Segment)
  : MockAdapter * option error :=
  ({| mockGetInfo := mockGetInfo a;
      mockAddDidSaveChannel := mockAddDidSaveChannel a;
      mockSaveSegment := record (mockSaveSegment a) segment;
      mockGetSegment := mockGetSegment a;
      mockDeleteSegment := mockDeleteSegment a;
      mockFindSegments := mockFindSegments a;
      mockGetMapIDs := mockGetMapIDs a |},
   answer (mockSaveSegment a) segment None).

Definition GetSegment (a : MockAdapter) (linkHash : option Bytes32)
  : MockAdapter * (option Segment * option error) :=
  ({| mockGetInfo := mockGetInfo a;
      mockAddDidSaveChannel := mockAddDidSaveChannel a;
      mockSaveSegment := mockSaveSegment a;
      mockGetSegment := record (mockGetSegment a) linkHash;
      mockDeleteSegment := mockDeleteSegment a;
      mockFindSegments := mockFindSegments a;
      mockGetMapIDs := mockGetMapIDs a |},
   answer (mockGetSegment a) linkHash (None, None)).

Definition DeleteSegment (a : MockAdapter) (linkHash : option Bytes32)
  : MockAdapter * (option Segment * option error) :=
  ({| mockGetInfo := mockGetInfo a;
      mockAddDidSaveChannel := mockAddDidSaveChannel a;
      mockSaveSegment := mockSaveSegment a;
      mockGetSegment := mockGetSegment a;
      mockDeleteSegment := record (mockDeleteSegment a) linkHash;
      mockFindSegments := mockFindSegments a;
      mockGetMapIDs := mockGetMapIDs a |},
   answer (mockDeleteSegment a) linkHash (None, None)).

Definition FindSegments (a : MockAdapter) (filter : option Filter)
  : MockAdapter * (slice Segment * option error) :=
  ({| mockGetInfo := mockGetInfo a;
      mockAddDidSaveChannel := mockAddDidSaveChannel a;
      mockSaveSegment := mockSaveSegment a;
      mockGetSegment := mockGetSegment a;
      mockDeleteSegment := mockDeleteSegment a;
      mockFindSegments := record (mockFindSegments a) filter;
      mockGetMapIDs := mockGetMapIDs a |},
   answer (mockFindSegments a) filter (nil_slice, None)).

Definition GetMapIDs (a : MockAdapter) (pagination : option Pagination)
  : MockAdapter * (slice string * option error) :=
  ({| mockGetInfo := mockGetInfo a;
      mockAddDidSaveChannel := mockAddDidSaveChannel a;
      mockSaveSegment := mockSaveSegment a;
      mockGetSegment := mockGetSegment a;
      mockDeleteSegment := mockDeleteSegment a;
      mockFindSegments := mockFindSegments a;
      mockGetMapIDs := record (mockGetMapIDs a) pagination |},
   answer (mockGetMapIDs a) pagination (nil_slice, None)).

(** One call of a method of the adapter. *)
Inductive Call : Type :=
  | CallGetInfo
  | CallAddDidSaveChannel (saveChan : option Chan)
  | CallSaveSegment (segment : option Segment)
  | CallGetSegment (linkHash : option Bytes32)
  | CallDeleteSegment (linkHash : option Bytes32)
  | CallFindSegments (filter : option Filter)
  | CallGetMapIDs (pagination : option Pagination).

Definition call (a : MockAdapter) (c : Call) : MockAdapter :=
  match c with
  | CallGetInfo => (GetInfo a).1
  | CallAddDidSaveChannel x => (AddDidSaveChannel a x).1
  | CallSaveSegment x => (SaveSegment a x).1
  | CallGetSegment x => (GetSegment a x).1
  | CallDeleteSegment x => (DeleteSegment a x).1
  | CallFindSegments x => (FindSegments a x).1
  | CallGetMapIDs x => (GetMapIDs a x).1
  end.

Definition calls (a : MockAdapter) (cs : list Call) : MockAdapter :=
  fold_left call cs a.

(** A mock on which no call was made yet. *)
Definition fresh {A R} (m : Mock A R) : Prop :=
  CalledCount m = 0%Z ∧ CalledWith m = [] ∧ LastCalledWith m = None.

(** The three recording fields agree: the count is the number of
    recorded arguments and the last argument is the last recorded. *)
Definition consistent {A R} (m : Mock A R) : Prop :=
  CalledCount m = wrapInt (Z.of_nat (length (CalledWith m))) ∧
  LastCalledWith m = default None (last (CalledWith m)).

(** The argument of a call, when it is a call of the given method. *)
Definition argAddDidSaveChannel (c : Call) : option (option Chan) :=
  match c with CallAddDidSaveChannel x => Some x | _ => None end.
Definition argSaveSegment (c : Call) : option (option Segment) :=
  match c with CallSaveSegment x => Some x | _ => None end.
Definition argGetSegment (c : Call) : option (option Bytes32) :=
  match c with CallGetSegment x => Some x | _ => None end.
Definition argDeleteSegment (c : Call) : option (option Bytes32) :=
  match c with CallDeleteSegment x => Some x | _ => None end.
Definition argFindSegments (c : Call) : option (option Filter) :=
  match c with CallFindSegments x => Some x | _ => None end.
Definition argGetMapIDs (c : Call) : option (option Pagination) :=
  match c with CallGetMapIDs x => Some x | _ => None end.
Definition isGetInfo (c : Call) : bool :=
  match c with CallGetInfo => true | _ => false end.

(** The mock recorded exactly the arguments [args], in that order. *)
Definition recorded {A R} (m : Mock A R) (args : list (option A)) : Prop :=
  CalledWith m = args ∧
  CalledCount m = wrapInt (Z.of_nat (length args)) ∧
  LastCalledWith m = default None (last args).

(** The zero value of a mock, with an optional implementation. *)
Definition zeroMock {A R} (fn : option (option A → R)) : Mock A R :=
  {| CalledCount := 0; CalledWith := []; LastCalledWith := None; Fn := fn |}.

End Mocks.

Arguments CalledCount {A R} _.
Arguments CalledWith {A R} _.
Arguments LastCalledWith {A R} _.
Arguments Fn {A R} _.
Arguments GetInfo_CalledCount {Any} _.
Arguments GetInfo_Fn {Any} _.
Arguments mockGetInfo {Any Filter} _.
Arguments mockAddDidSaveChannel {Any Filter} _.
Arguments mockSaveSegment {Any Filter} _.
Arguments mockGetSegment {Any Filter} _.
Arguments mockDeleteSegment {Any Filter} _.
Arguments mockFindSegments {Any Filter} _.
Arguments mockGetMapIDs {Any Filter} _.
Arguments CallGetInfo {Filter}.
Arguments CallAddDidSaveChannel {Filter} _.
Arguments CallSaveSegment {Filter} _.
Arguments CallGetSegment {Filter} _.
Arguments CallDeleteSegment {Filter} _.
Arguments CallFindSegments {Filter} _.
Arguments CallGetMapIDs {Filter} _.
Arguments call {Any Filter} _ _.
Arguments calls {Any Filter} _ _.
Arguments argAddDidSaveChannel {Filter} _.
Arguments argSaveSegment {Filter} _.
Arguments argGetSegment {Filter} _.
Arguments argDeleteSegment {Filter} _.
Arguments argFindSegments {Filter} _.
Arguments argGetMapIDs {Filter} _.
Arguments isGetInfo {Filter} _.

End storetesting.

(** ** Vocabulary of the statements *)

Import types cs store dummystore.

(** Every stored link is indexed: its hash is in the set of its map. *)
Definition indexed (a : DummyStore) : Prop :=
  map_Forall (λ h link, h ∈ default ∅ (maps a !! GetMapID link)) (links a).

(** The stores that the operations build from a new store. *)
Inductive reachable (Hash : Link → error + Bytes32) : DummyStore → Prop :=
  | reachable_New c :
      reachable Hash (New c)
  | reachable_AddStoreEventChannel a eventChan :
      reachable Hash a → reachable Hash (AddStoreEventChannel a eventChan)
  | reachable_CreateLink a link :
      reachable Hash a → reachable Hash (store_after (CreateLink Hash a link))
  | reachable_AddEvidence a linkHash evidence :
      reachable Hash a →
      reachable Hash (store_after (AddEvidence a linkHash evidence))
  | reachable_setValue a key value :
      reachable Hash a → reachable Hash (setValue a key value).1
  | reachable_deleteValue a key :
      reachable Hash a → reachable Hash (deleteValue a key).1.

(** The segment stored under [h], when there is one and it satisfies the
    filter. *)
Definition matchingSegment (a : DummyStore) (filter : SegmentFilter)
    (h : string) : option Segment :=
  s ← (getSegment a h).1; if Match filter (Some s) then Some s else None.

(** Every hash held by a map is the hash of a stored link. *)
Definition linked (a : DummyStore) : Prop :=
  map_Forall (λ _ l, l ⊆ dom (links a)) (maps a).

(** How many times channel [c] was registered. *)
Definition registrations (c : Chan) (chans : list Chan) : nat :=
  length (filter (λ c', c' = c) chans).

(** The sends [sends] deliver the one event [ev] to the registered
    channels [chans]: one send per registration, in registration order,
    all of the same event. *)
Definition deliversOnce (chans : list Chan) (ev : Event) (sends : list Send)
  : Prop :=
  send_chan <$> sends = chans ∧
  (∀ s, s ∈ sends → send_event s = ev) ∧
  (∀ c, received c sends = replicate (registrations c chans) ev).

(** The evidences of a slice that come from the source of [e]. *)
Definition fromSource (e : Evidence) (evs : Evidences) : list Evidence :=
  List.filter (sameSource e) (slice_elems evs).

(** One operation of the store that may change it. *)
Inductive Op : Type :=
  | OpAddStoreEventChannel (eventChan : Chan)
  | OpCreateLink (link : Link)
  | OpAddEvidence (linkHash : Bytes32) (evidence : Evidence)
  | OpSetValue (key value : list Byte.byte)
  | OpDeleteValue (key : list Byte.byte).

Definition runOp (Hash : Link → error + Bytes32) (a : DummyStore) (o : Op)
  : DummyStore :=
  match o with
  | OpAddStoreEventChannel c => AddStoreEventChannel a c
  | OpCreateLink link => store_after (CreateLink Hash a link)
  | OpAddEvidence h e => store_after (AddEvidence a h e)
  | OpSetValue k v => (SetValue a k v).1
  | OpDeleteValue k => (DeleteValue a k).1
  end.

Definition runOps (Hash : Link → error + Bytes32) (a : DummyStore)
    (ops : list Op) : DummyStore :=
  fold_left (runOp Hash) ops a.

(** Every link is stored under the hex string of its own hash. *)
Definition hashKeyed (Hash : Link → error + Bytes32) (a : DummyStore) : Prop :=
  map_Forall (λ k link, ∃ h, Hash link = inr h ∧ Bytes32_String h = k)
             (links a).

(** Strictly ascending strings. *)
Definition stringLt (s1 s2 : string) : Prop := String.ltb s1 s2 = true.

#[global] Instance byte_eq_dec : EqDecision Byte.byte := Byte.byte_eq_dec.

(** Reading lowercase hex back, two digits per byte. *)
Definition unhexDigit (c : ascii) : option N :=
  let n := N_of_ascii c in
  if (48 <=? n)%N && (n <=? 57)%N then Some (n - 48)%N
  else if (97 <=? n)%N && (n <=? 102)%N then Some (n - 87)%N
  else None.

Definition unhexByte (c1 c2 : ascii) : option Byte.byte :=
  hi ← unhexDigit c1; lo ← unhexDigit c2; Byte.of_N (hi * 16 + lo).

Fixpoint decodeHex (s : string) : option (list Byte.byte) :=
  match s with
  | EmptyString => Some []
  | String c1 (String c2 rest) =>
      b ← unhexByte c1 c2; bs ← decodeHex rest; Some (b :: bs)
  | String _ EmptyString => None
  end.






(** ** Sample data for the examples *)

Module samples.

(** A stand-in for [cs.Link.Hash]: the bytes of the state; a link with
    an empty state cannot be hashed. *)
Definition stateHash (l : Link) : error + Bytes32 :=
  if bool_decide (link_state l = "")
  then inl (Internal "unsupported value")
  else inr (list_byte_of_string (link_state l)).

Definition root (st mapID : string) : Link :=
  {| link_state := st; link_mapId := mapID; link_process := "p";
     link_prevLinkHash := None; link_tags := []; link_priority := None;
     link_refs := [] |}.

Definition L1 : Link := root "L1" "m1".

Definition L2 : Link :=
  {| link_state := "L2"; link_mapId := "m1"; link_process := "p";
     link_prevLinkHash := Some "4c31"; link_tags := ["t"];
     link_priority := Some (3 # 2)%Q; link_refs := [] |}.

Definition L3 : Link := root "L3" "m2".

Definition H1 : Bytes32 := list_byte_of_string "L1".
Definition H2 : Bytes32 := list_byte_of_string "L2".
Definition H9 : Bytes32 := list_byte_of_string "L9".

Definition E1 : Evidence :=
  {| ev_backend := "b"; ev_provider := "p"; ev_proof := "first" |}.

Definition E2 : Evidence :=
  {| ev_backend := "b"; ev_provider := "p"; ev_proof := "second" |}.

Definition cfg : Config := {| Version := "x.x.x"; Commit := "0000000" |}.

(** An empty store with two registered sinks. *)
Definition S0 : DummyStore :=
  AddStoreEventChannel (AddStoreEventChannel (New cfg) 7%nat) 4%nat.

Definition H3 : Bytes32 := list_byte_of_string "L3".

(** The stores after [L1], then [L2], then [L3] were created. *)
Definition S1 : DummyStore := store_after (CreateLink stateHash S0 L1).
Definition S2 : DummyStore := store_after (CreateLink stateHash S1 L2).
Definition S3 : DummyStore := store_after (CreateLink stateHash S2 L3).

Definition noFilter : SegmentFilter :=
  {| filter_Pagination := {| Offset := 0; Limit := 0 |}; MapIDs := [];
     Process := ""; LinkHashes := []; PrevLinkHash := None; Tags := [] |}.

Definition inMap (mapID : string) (limit : Z) : SegmentFilter :=
  {| filter_Pagination := {| Offset := 0; Limit := limit |};
     MapIDs := [mapID]; Process := ""; LinkHashes := [];
     PrevLinkHash := None; Tags := [] |}.

Definition badRef : SegmentRef :=
  {| ref_Process := "wrong"; ref_LinkHash := None; ref_Segment := None |}.

Definition initRoot (process : string) (refs : list SegmentRef)
    (args : list string) : error + Link :=
  match args with
  | [] => inl (ValidationError "a title is required")
  | title :: _ =>
      inr {| link_state := title; link_mapId := title;
             link_process := process; link_prevLinkHash := None;
             link_tags := []; link_priority := None; link_refs := refs |}
  end.

Definition K1 : list Byte.byte := list_byte_of_string "k1".
Definition K2 : list Byte.byte := list_byte_of_string "k2".
Definition V1 : list Byte.byte := list_byte_of_string "v1".

(** A store with one value. *)
Definition SV : DummyStore := (SetValue S3 K1 V1).1.

(** A stand-in for [store.MapFilter.MatchLink]: the process, when set,
    is the process of the link. *)
Definition processOf (f : MapFilter) (l : Link) : bool :=
  bool_decide (mapfilter_Process f = "") ||
  bool_decide (mapfilter_Process f = GetProcess l).

(** A stand-in for [store.Pagination.PaginateStrings]. *)
Definition page (p : Pagination) (l : list string) : list string :=
  take (Z.to_nat (Limit p)) (drop (Z.to_nat (Offset p)) l).

(** A mock adapter on which nothing was called, with an implementation
    of [GetSegment] only. *)
Definition mock0 : storetesting.MockAdapter unit unit :=
  {| storetesting.mockGetInfo :=
       {| storetesting.GetInfo_CalledCount := 0;
          storetesting.GetInfo_Fn := None |};
     storetesting.mockAddDidSaveChannel := storetesting.zeroMock None;
     storetesting.mockSaveSegment := storetesting.zeroMock None;
     storetesting.mockGetSegment :=
       storetesting.zeroMock (Some (λ _, (None, Some (Internal "error"))));
     storetesting.mockDeleteSegment := storetesting.zeroMock None;
     storetesting.mockFindSegments := storetesting.zeroMock None;
     storetesting.mockGetMapIDs := storetesting.zeroMock None |}.

Definition someCalls : list (storetesting.Call unit) :=
  [storetesting.CallGetSegment (Some H1);
   storetesting.CallGetInfo;
   storetesting.CallGetSegment None;
   storetesting.CallGetMapIDs (Some {| Offset := 0; Limit := 10 |});
   storetesting.CallGetSegment (Some H2)].

Definition anyMap : MapFilter :=
  {| mapfilter_Pagination := {| Offset := 0; Limit := 10 |};
     mapfilter_Process := "" |}.

End samples.

(** * Properties of the reference store *)

Section StoreProperties.

Variable Hash : Link → error + Bytes32.

(** The map index after [createLink]: the hash joins the set of the
    link's map, which starts empty when the map is new. *)
Lemma createLink_maps (a : DummyStore) (link : Link) (linkHash : Bytes32) :
  Hash link = inr linkHash →
  maps (store_after (createLink Hash a link)) =
    <[GetMapID link :=
        default ∅ (maps a !! GetMapID link) ∪ {[Bytes32_String linkHash]}]>
      (maps a).
Proof.
  intros HH. unfold createLink. rewrite HH. simpl.
  apply map_eq. intros m.
  destruct (decide (GetMapID link = m)) as [<-|Hne].
  - rewrite lookup_insert_eq.
    destruct (maps a !! GetMapID link) as [s|] eqn:Hs; simpl.
    + rewrite lookup_alter_eq, Hs. done.
    + rewrite lookup_alter_eq, lookup_insert_eq. done.
  - rewrite lookup_insert_ne by done.
    destruct (maps a !! GetMapID link) as [s|] eqn:Hs.
    + by rewrite lookup_alter_ne.
    + rewrite lookup_alter_ne by done. by rewrite lookup_insert_ne.
Qed.

Lemma createLink_links (a : DummyStore) (link : Link) (linkHash : Bytes32) :
  Hash link = inr linkHash →
  links (store_after (createLink Hash a link)) =
    <[Bytes32_String linkHash := link]> (links a).
Proof. intros HH. unfold createLink. by rewrite HH. Qed.

Lemma createLink_rejected (a : DummyStore) (link : Link) (err : error) :
  Hash link = inl err →
  createLink Hash a link =
    {| store_after := a; returned := (None, Some err); sent := [] |}.
Proof. intros HH. unfold createLink. by rewrite HH. Qed.


(** C5: a hash under which no link is stored gets a nil segment and a
    nil error from [GetSegment]; a hash under which no evidence is
    stored gets nil evidences and a nil error from [GetEvidences]. *)
Theorem C5_absent_is_nil_not_error (a : DummyStore) (linkHash : Bytes32) :
  (links a !! Bytes32_String linkHash = None →
   GetSegment a linkHash = (None, None)) ∧
  (evidences a !! Bytes32_String linkHash = None →
   GetEvidences a linkHash = (None, None)).
Proof.
  split; intros Hnone.
  - unfold GetSegment, getSegment. by rewrite Hnone.
  - unfold GetEvidences. by rewrite Hnone.
Qed.

(** C10: for a stored link without evidence, [GetSegment] gives a
    segment whose evidences are an empty slice that is not nil, while
    [GetEvidences] gives nil. *)
Theorem C10_empty_evidences_differ
    (a : DummyStore) (linkHash : Bytes32) (link : Link) :
  links a !! Bytes32_String linkHash = Some link →
  evidences a !! Bytes32_String linkHash = None →
  ∃ segment,
    GetSegment a linkHash = (Some segment, None) ∧
    seg_Link segment = link ∧
    meta_Evidences (seg_Meta segment) = mk_slice [] ∧
    is_nil_slice (meta_Evidences (seg_Meta segment)) = false ∧
    GetEvidences a linkHash = (None, None).
Proof.
  intros Hl He. eexists. unfold GetSegment, getSegment, GetEvidences.
  rewrite Hl, He. by split_and!.
Qed.

(** C7: creating the same link twice returns the same hash, and the
    second call leaves the links, maps, evidences and values as the
    first call left them. *)
Theorem C7_CreateLink_idempotent (a : DummyStore) (link : Link) :
  let first := CreateLink Hash a link in
  let second := CreateLink Hash (store_after first) link in
  returned second = returned first ∧
  links (store_after second) = links (store_after first) ∧
  maps (store_after second) = maps (store_after first) ∧
  evidences (store_after second) = evidences (store_after first) ∧
  values (store_after second) = values (store_after first) ∧
  store_after second = store_after first.
Proof.
  intros first second. subst first second. unfold CreateLink.
  destruct (Hash link) as [err|linkHash] eqn:HH.
  - repeat (rewrite (createLink_rejected _ _ err HH); simpl). done.
  - set (a1 := store_after (createLink Hash a link)).
    assert (Hl : links (store_after (createLink Hash a1 link)) = links a1).
    { rewrite (createLink_links a1 _ _ HH). subst a1.
      rewrite (createLink_links a _ _ HH). apply insert_insert_eq. }
    assert (Hm : maps (store_after (createLink Hash a1 link)) = maps a1).
    { rewrite (createLink_maps a1 _ _ HH). subst a1.
      rewrite (createLink_maps a _ _ HH).
      rewrite lookup_insert_eq. simpl. rewrite insert_insert_eq.
      f_equal. by rewrite <- (assoc_L (∪)), (idemp_L (∪)). }
    assert (Hr : returned (createLink Hash a1 link) =
                 returned (createLink Hash a link)).
    { unfold createLink. by rewrite HH. }
    assert (He : evidences (store_after (createLink Hash a1 link)) = evidences a1).
    { unfold createLink. by rewrite HH. }
    assert (Hv : values (store_after (createLink Hash a1 link)) = values a1).
    { unfold createLink. by rewrite HH. }
    assert (Hc : config (store_after (createLink Hash a1 link)) = config a1).
    { unfold createLink. by rewrite HH. }
    assert (Hch : eventChans (store_after (createLink Hash a1 link)) = eventChans a1).
    { unfold createLink. by rewrite HH. }
    split_and!; try done.
    destruct (store_after (createLink Hash a1 link)), a1. simpl in *.
    by subst.
Qed.

End StoreProperties.

(** * Evidences and events *)

Section EvidencesAndEvents.

Variable Hash : Link → error + Bytes32.

Lemma sameSource_sym (e1 e2 : Evidence) :
  sameSource e1 e2 = sameSource e2 e1.
Proof.
  unfold sameSource. apply eq_true_iff_eq.
  rewrite !andb_true_iff, !bool_decide_eq_true. intuition congruence.
Qed.

Lemma sameSource_trans (e1 e2 e3 : Evidence) :
  sameSource e1 e2 = true → sameSource e2 e3 = true → sameSource e1 e3 = true.
Proof.
  unfold sameSource.
  rewrite !andb_true_iff, !bool_decide_eq_true. intuition congruence.
Qed.

Lemma existsb_sameSource (e1 e2 : Evidence) (evs : list Evidence) :
  sameSource e2 e1 = true →
  existsb (sameSource e2) evs = existsb (sameSource e1) evs.
Proof.
  intros H12. induction evs as [|x evs IH]; simpl; [done|].
  rewrite IH. f_equal. apply eq_true_iff_eq. split; intros Hx.
  - apply (sameSource_trans e1 e2 x); [by rewrite sameSource_sym|done].
  - by apply (sameSource_trans e2 e1 x).
Qed.

Lemma filter_sameSource_none (e : Evidence) (evs : list Evidence) :
  existsb (sameSource e) evs = false → List.filter (sameSource e) evs = [].
Proof.
  induction evs as [|x evs IH]; simpl; [done|].
  rewrite orb_false_iff. intros [-> Hrest]. by apply IH.
Qed.

(** The outcome of [AddEvidence] when the source of the evidence is
    new for the hash. *)
Lemma AddEvidence_accepted (a : DummyStore) (linkHash : Bytes32) (e : Evidence) :
  let current := default (mk_slice []) (evidences a !! Bytes32_String linkHash) in
  existsb (sameSource e) (slice_elems current) = false →
  AddEvidence a linkHash e =
    {| store_after :=
         {| config := config a; eventChans := eventChans a; links := links a;
            evidences := <[Bytes32_String linkHash :=
                             mk_slice (slice_elems current ++ [e])]> (evidences a);
            values := values a; maps := maps a |};
       returned := None;
       sent := publish (eventChans a)
                 (AddSavedEvidence NewSavedEvidences linkHash e) |}.
Proof.
  intros current Hnew. subst current.
  unfold AddEvidence, addEvidence, Evidences_AddEvidence.
  destruct (evidences a !! Bytes32_String linkHash) as [evs|]; simpl in *;
    rewrite ?Hnew; done.
Qed.

(** The outcome of [AddEvidence] when the hash already has an evidence
    of that source. *)
Lemma AddEvidence_rejected (a : DummyStore) (linkHash : Bytes32) (e : Evidence) :
  let current := default (mk_slice []) (evidences a !! Bytes32_String linkHash) in
  existsb (sameSource e) (slice_elems current) = true →
  AddEvidence a linkHash e =
    {| store_after := a; returned := Some Conflict; sent := [] |}.
Proof.
  intros current Hdup. subst current.
  unfold AddEvidence, addEvidence, Evidences_AddEvidence.
  destruct (evidences a !! Bytes32_String linkHash) as [evs|]; simpl in *;
    rewrite ?Hdup; done.
Qed.

(** C6: after an [AddEvidence], a second [AddEvidence] on the same hash
    with an evidence of the same [(backend, provider)] returns an error
    and changes nothing; when the first call was accepted, the hash
    then has exactly one evidence of that source, the first one. *)
Theorem C6_duplicate_evidence_rejected
    (a : DummyStore) (linkHash : Bytes32) (e1 e2 : Evidence) :
  sameSource e2 e1 = true →
  let first := AddEvidence a linkHash e1 in
  let second := AddEvidence (store_after first) linkHash e2 in
  returned second = Some Conflict ∧
  store_after second = store_after first ∧
  sent second = [] ∧
  (returned first = None →
   ∃ evs, GetEvidences (store_after second) linkHash = (Some evs, None) ∧
          fromSource e2 evs = [e1]).
Proof.
  intros Hsame first second. subst first second.
  set (current := default (mk_slice []) (evidences a !! Bytes32_String linkHash)).
  destruct (existsb (sameSource e1) (slice_elems current)) eqn:Hex.
  - rewrite (AddEvidence_rejected a linkHash e1 Hex). simpl.
    rewrite (AddEvidence_rejected a linkHash e2); simpl.
    + by split_and!.
    + fold current. by rewrite (existsb_sameSource e1 e2).
  - rewrite (AddEvidence_accepted a linkHash e1 Hex). simpl.
    fold current.
    set (a1 := {| config := config a; eventChans := eventChans a;
                  links := links a;
                  evidences := <[Bytes32_String linkHash :=
                    mk_slice (slice_elems current ++ [e1])]> (evidences a);
                  values := values a; maps := maps a |}).
    rewrite (AddEvidence_rejected a1 linkHash e2); simpl.
    + split_and!; try done. intros _. eexists.
      unfold GetEvidences. simpl. rewrite lookup_insert_eq.
      split; [done|]. unfold fromSource. simpl.
      rewrite List.filter_app. simpl. rewrite Hsame.
      rewrite filter_sameSource_none; [done|].
      by rewrite (existsb_sameSource e1 e2).
    + rewrite lookup_insert_eq. simpl. rewrite existsb_app. simpl.
      rewrite Hsame. by rewrite orb_true_r.
Qed.

Lemma publish_deliversOnce (chans : list Chan) (ev : Event) :
  deliversOnce chans ev (publish chans ev).
Proof.
  unfold deliversOnce, publish. split_and!.
  - rewrite <- list_fmap_compose. simpl.
    induction chans as [|c chans IH]; simpl; [done|]. by f_equal.
  - intros s Hs. apply list_elem_of_fmap in Hs as (c & -> & _). done.
  - intros c. unfold received, registrations.
    induction chans as [|c' chans IH]; [done|].
    rewrite fmap_cons, !filter_cons. simpl.
    destruct (decide (c' = c)); [rewrite fmap_cons|]; simpl; by rewrite IH.
Qed.

(** Registering a sink puts it after the sinks registered before. *)
Lemma AddStoreEventChannel_order (a : DummyStore) (c : Chan) (ev : Event) :
  publish (eventChans (AddStoreEventChannel a c)) ev =
    (publish (eventChans a) ev ++ [{| send_chan := c; send_event := ev |}])%list.
Proof. unfold publish. simpl. by rewrite fmap_app. Qed.

(** C8: an accepted [CreateLink] or [AddEvidence] builds one event and
    sends it to every registered sink, in the order of registration,
    once per registration. *)
Theorem C8_one_event_per_accepted_write
    (a : DummyStore) (link : Link) (linkHash : Bytes32) (e : Evidence) :
  ((returned (CreateLink Hash a link)).2 = None →
   deliversOnce (eventChans a) (NewSavedLinks link)
     (sent (CreateLink Hash a link))) ∧
  (returned (AddEvidence a linkHash e) = None →
   deliversOnce (eventChans a)
     (SavedEvidences {[Bytes32_String linkHash := e]})
     (sent (AddEvidence a linkHash e))).
Proof.
  split.
  - unfold CreateLink, createLink.
    destruct (Hash link) as [err|h]; simpl; [done|].
    intros _. apply publish_deliversOnce.
  - set (current := default (mk_slice []) (evidences a !! Bytes32_String linkHash)).
    destruct (existsb (sameSource e) (slice_elems current)) eqn:Hex.
    + by rewrite (AddEvidence_rejected a linkHash e Hex).
    + rewrite (AddEvidence_accepted a linkHash e Hex). simpl.
      intros _. apply publish_deliversOnce.
Qed.

(** A rejected write sends nothing. *)
Lemma rejected_write_is_silent
    (a : DummyStore) (link : Link) (linkHash : Bytes32) (e : Evidence) :
  ((returned (CreateLink Hash a link)).2 ≠ None →
   sent (CreateLink Hash a link) = []) ∧
  (returned (AddEvidence a linkHash e) ≠ None →
   sent (AddEvidence a linkHash e) = []).
Proof.
  split.
  - unfold CreateLink, createLink. by destruct (Hash link).
  - set (current := default (mk_slice []) (evidences a !! Bytes32_String linkHash)).
    destruct (existsb (sameSource e) (slice_elems current)) eqn:Hex.
    + by rewrite (AddEvidence_rejected a linkHash e Hex).
    + by rewrite (AddEvidence_accepted a linkHash e Hex).
Qed.

End EvidencesAndEvents.

(** * Properties of the query translation *)

Section QueryTranslation.

Import couchstore.

(** The [limit] of the query is the limit of the filter, except that a
    limit of [0] is left out. *)
Lemma NewSegmentQuery_limit (filter : store.SegmentFilter) :
  queryLimit (NewSegmentQuery filter).1 =
    if bool_decide (store.Limit (store.filter_Pagination filter) = 0%Z)
    then None
    else Some (JNumber (store.Limit (store.filter_Pagination filter))).
Proof.
  unfold queryLimit, NewSegmentQuery, marshalLinkQuery, omitemptyInt. simpl.
  repeat case_bool_decide; simpl; done.
Qed.

(** C2: the query built for a filter whose limit is [0] carries no
    [limit] at all: it is the query of a filter without pagination. *)
Theorem C2_limit_zero_left_out_of_query :
  store.Limit (store.filter_Pagination samples.noFilter) = 0%Z ∧
  NewSegmentQuery samples.noFilter =
    (Some (JObject [("selector", JObject [("docType", JString "link")])]),
     None) ∧
  queryLimit (NewSegmentQuery samples.noFilter).1 = None.
Proof. by split_and!. Qed.

(** C3, as stated, fails: a filter whose [prevLinkHash] is nil gets no
    selector on [link.meta.prevLinkHash], not [{"$exists": false}]. *)
Lemma C3_nil_prevLinkHash_has_no_selector :
  store.PrevLinkHash samples.noFilter = None ∧
  prevLinkHashSelector (NewSegmentQuery samples.noFilter).1 = None ∧
  prevLinkHashSelector (NewSegmentQuery samples.noFilter).1 ≠
    Some (JObject [("$exists", JBool false)]).
Proof. by split_and!. Qed.

(** C3, amended: a nil [prevLinkHash] adds no selector on
    [link.meta.prevLinkHash], and the filter puts no constraint on the
    link; a pointer to the empty string translates to
    [{"$exists": false}], and the filter matches the links whose
    [prevLinkHash] is unset; a pointer to a non-empty value translates
    to [{"$eq": value}], and the filter matches the links whose
    [prevLinkHash] is that value. *)
Theorem C3_prevLinkHash_selector (filter : store.SegmentFilter) :
  let selector := prevLinkHashSelector (NewSegmentQuery filter).1 in
  let matches := store.matchPrevLinkHash (store.PrevLinkHash filter) in
  match store.PrevLinkHash filter with
  | None =>
      selector = None ∧ ∀ l, matches l = true
  | Some p =>
      if bool_decide (p = "")
      then selector = Some (JObject [("$exists", JBool false)]) ∧
           ∀ l, matches l = true ↔ GetPrevLinkHash l = None
      else selector = Some (JObject [("$eq", JString p)]) ∧
           ∀ l, matches l = true ↔ GetPrevLinkHash l = Some p
  end.
Proof.
  intros selector matches. subst selector matches.
  unfold prevLinkHashSelector, NewSegmentQuery. simpl.
  unfold marshalLinkSelector, segmentSelector. simpl.
  destruct (store.PrevLinkHash filter) as [p|]; simpl.
  - case_bool_decide as Hp; simpl.
    + split; [done|]. intros l. by rewrite bool_decide_eq_true.
    + unfold marshalPrevLinkHash, omitemptyString. simpl.
      rewrite bool_decide_eq_false_2 by done.
      split; [done|]. intros l. by rewrite bool_decide_eq_true.
  - split; [|done]. unfold omitemptyString, omitemptyPtr.
    repeat case_bool_decide; simpl; done.
Qed.

End QueryTranslation.

(** * Properties of the reference validation *)

Section ReferenceValidation.

Import client.

Variable Hash : Link → error + Bytes32.
Variable init : string → list SegmentRef → list string → error + Link.

(** C9: a [CreateMap] whose references hold an entry that is neither a
    full segment nor a [(process, linkHash)] pair fails with the
    message [missing segment or (process and linkHash)], returns no
    segment, and leaves the store as it was. *)
Theorem C9_bad_reference_rejected
    (a : DummyStore) (process : string) (refs : list SegmentRef)
    (args : list string) (r : SegmentRef) :
  r ∈ refs →
  wellFormedRef r = false →
  CreateMap Hash init a process refs args =
    {| store_after := a;
       returned :=
         (None,
          Some (ValidationError "missing segment or (process and linkHash)"));
       sent := [] |}.
Proof.
  intros Hin Hbad. unfold CreateMap, validateRefs.
  assert (forallb wellFormedRef refs = false) as ->; [|done].
  apply not_true_is_false. intros Hall.
  rewrite forallb_forall in Hall.
  apply list_elem_of_In in Hin. specialize (Hall r Hin). congruence.
Qed.

End ReferenceValidation.

(** * The order of segments *)

Section SegmentOrder.

Lemma ltb_lt (a b : string) : String.ltb a b = true ↔ String_as_OT.lt a b.
Proof.
  unfold String.ltb. rewrite <- String_as_OT.cmp_lt.
  unfold String_as_OT.cmp. destruct (String.compare a b); split; congruence.
Qed.

Lemma ltb_asym (a b : string) : String.ltb a b = true → String.ltb b a = false.
Proof.
  unfold String.ltb. rewrite (String.compare_antisym b a).
  destruct (String.compare a b); simpl; congruence.
Qed.

Lemma ltb_neither (a b : string) :
  String.ltb a b = false → String.ltb b a = false → a = b.
Proof.
  unfold String.ltb. rewrite (String.compare_antisym b a).
  destruct (String.compare a b) eqn:E; simpl; try congruence.
  intros _ _. by apply String.compare_eq_iff.
Qed.

Lemma ltb_trans (a b c : string) :
  String.ltb a b = true → String.ltb b c = true → String.ltb a c = true.
Proof. rewrite !ltb_lt. apply String_as_OT.lt_trans. Qed.

Lemma ltb_between (a b c : string) :
  String.ltb a c = true → String.ltb a b = true ∨ String.ltb b c = true.
Proof.
  intros Hac.
  destruct (String.ltb a b) eqn:Hab; [by left|].
  destruct (String.ltb b c) eqn:Hbc; [by right|]. exfalso.
  destruct (String.ltb b a) eqn:Hba.
  - rewrite (ltb_trans b a c Hba Hac) in Hbc. done.
  - rewrite (ltb_neither a b Hab Hba) in Hac. congruence.
Qed.

Lemma priorityGt_spec (p q : option Q) :
  priorityGt p q = true ↔
  match p, q with
  | Some x, Some y => (y < x)%Q
  | Some _, None => True
  | None, _ => False
  end.
Proof.
  destruct p as [x|], q as [y|]; simpl; try (split; congruence || done).
  rewrite Qlt_alt. destruct (y ?= x)%Q; split; congruence.
Qed.

Lemma priorityGt_asym (p q : option Q) :
  priorityGt p q = true → priorityGt q p = false.
Proof.
  intros Hpq. apply not_true_is_false. revert Hpq.
  rewrite !priorityGt_spec. destruct p, q; try tauto. lra.
Qed.

Lemma priorityGt_between (p q r : option Q) :
  priorityGt p r = true → priorityGt p q = true ∨ priorityGt q r = true.
Proof.
  rewrite !priorityGt_spec. destruct p, q, r; try tauto. lra.
Qed.

Lemma Less_asym (x y : Segment) : Less x y = true → Less y x = false.
Proof.
  unfold Less.
  destruct (priorityGt (GetPriority (seg_Link x)) (GetPriority (seg_Link y))) eqn:Hxy.
  - intros _. by rewrite (priorityGt_asym _ _ Hxy).
  - destruct (priorityGt (GetPriority (seg_Link y)) (GetPriority (seg_Link x)));
      [done|]. apply ltb_asym.
Qed.

Lemma Less_between (x y z : Segment) :
  Less x z = true → Less x y = true ∨ Less y z = true.
Proof.
  unfold Less.
  set (px := GetPriority (seg_Link x)). set (py := GetPriority (seg_Link y)).
  set (pz := GetPriority (seg_Link z)).
  destruct (priorityGt px pz) eqn:Hxz.
  - intros _. destruct (priorityGt_between px py pz Hxz) as [->| ->]; auto.
  - destruct (priorityGt pz px) eqn:Hzx; [done|]. intros Hlt.
    destruct (priorityGt px py) eqn:Hxy; [by left|].
    destruct (priorityGt py pz) eqn:Hyz; [by right|].
    destruct (priorityGt py px) eqn:Hyx.
    { destruct (priorityGt_between py pz px Hyx); congruence. }
    destruct (priorityGt pz py) eqn:Hzy.
    { destruct (priorityGt_between pz px py Hzy); congruence. }
    by apply ltb_between.
Qed.

Lemma Less_neither (x y : Segment) :
  Less x y = false → Less y x = false →
  GetLinkHashString x = GetLinkHashString y.
Proof.
  unfold Less.
  destruct (priorityGt (GetPriority (seg_Link x)) (GetPriority (seg_Link y)));
    [done|].
  destruct (priorityGt (GetPriority (seg_Link y)) (GetPriority (seg_Link x)));
    [done|].
  apply ltb_neither.
Qed.

#[local] Instance notAfter_total : Total notAfter.
Proof.
  intros x y. unfold notAfter.
  destruct (Less y x) eqn:Hyx; [|by left]. right. by apply Less_asym.
Qed.

#[local] Instance notAfter_trans : Transitive notAfter.
Proof.
  intros x y z. unfold notAfter. intros Hyx Hzy.
  apply not_true_is_false. intros Hzx.
  destruct (Less_between z y x Hzx); congruence.
Qed.

Lemma sortSegments_Permutation (l : list Segment) : sortSegments l ≡ₚ l.
Proof. apply merge_sort_Permutation. Qed.

Lemma sortSegments_Sorted (l : list Segment) : Sorted notAfter (sortSegments l).
Proof. apply (Sorted_merge_sort notAfter). Qed.

(** Sorting does not depend on the order of its input, provided the
    segments are told apart by their link hashes. *)
Lemma sortSegments_order_irrelevant (l1 l2 : list Segment) :
  (∀ x y, x ∈ l1 → y ∈ l1 →
          GetLinkHashString x = GetLinkHashString y → x = y) →
  l1 ≡ₚ l2 →
  sortSegments l1 = sortSegments l2.
Proof.
  intros Hkey Hperm.
  apply (Sorted_unique_strong notAfter).
  - intros x y Hx Hy Hxy Hyx.
    rewrite sortSegments_Permutation in Hx.
    rewrite sortSegments_Permutation, <- Hperm in Hy.
    apply Hkey; [done..|]. by apply Less_neither.
  - apply sortSegments_Sorted.
  - apply sortSegments_Sorted.
  - by rewrite !sortSegments_Permutation.
Qed.

End SegmentOrder.

(** * The index of the maps is kept by every operation *)

Section Indexed.

Variable Hash : Link → error + Bytes32.

Lemma indexed_New (c : Config) : indexed (New c).
Proof. unfold indexed. simpl. apply map_Forall_empty. Qed.

Lemma indexed_createLink (a : DummyStore) (link : Link) :
  indexed a → indexed (store_after (createLink Hash a link)).
Proof.
  intros Hidx. destruct (Hash link) as [err|linkHash] eqn:HH.
  - by rewrite (createLink_rejected Hash a link err HH).
  - unfold indexed.
    rewrite (createLink_links Hash a link linkHash HH).
    rewrite (createLink_maps Hash a link linkHash HH).
    intros h link'. rewrite lookup_insert.
    case_decide as Hh.
    + intros [= <-]. subst h. rewrite lookup_insert_eq. simpl.
      apply elem_of_union_r, elem_of_singleton. done.
    + intros Hl. specialize (Hidx h link' Hl). simpl in Hidx.
      rewrite lookup_insert. case_decide as Hm; [|done].
      simpl. rewrite Hm. by apply elem_of_union_l.
Qed.

Lemma indexed_AddEvidence (a : DummyStore) (linkHash : Bytes32) (e : Evidence) :
  indexed a → indexed (store_after (AddEvidence a linkHash e)).
Proof.
  intros Hidx. unfold AddEvidence, addEvidence.
  destruct (Evidences_AddEvidence _ e); done.
Qed.

Lemma linked_createLink (a : DummyStore) (link : Link) :
  linked a → linked (store_after (createLink Hash a link)).
Proof.
  intros Hlinked. destruct (Hash link) as [err|linkHash] eqn:HH.
  - by rewrite (createLink_rejected Hash a link err HH).
  - unfold linked.
    rewrite (createLink_links Hash a link linkHash HH).
    rewrite (createLink_maps Hash a link linkHash HH).
    rewrite dom_insert_L. intros m l. rewrite lookup_insert.
    case_decide as Hm.
    + intros [= <-]. intros h Hh. apply elem_of_union in Hh as [Hh|Hh].
      * apply elem_of_union_r.
        destruct (maps a !! GetMapID link) as [l|] eqn:Hl; simpl in Hh.
        -- by apply (Hlinked _ _ Hl).
        -- by apply not_elem_of_empty in Hh.
      * by apply elem_of_union_l.
    + intros Hl h Hh. apply elem_of_union_r. by apply (Hlinked _ _ Hl).
Qed.

(** On a store built by the operations, the hashes held by the maps
    all have a link: the scan of [FindSegments] never meets a nil
    segment. *)
Lemma reachable_linked (a : DummyStore) : reachable Hash a → linked a.
Proof.
  induction 1 as [c|a ch _ IH|a link _ IH|a h e _ IH|a k v _ IH|a k _ IH].
  - unfold linked. simpl. apply map_Forall_empty.
  - exact IH.
  - by apply linked_createLink.
  - unfold AddEvidence, addEvidence.
    by destruct (Evidences_AddEvidence _ e).
  - exact IH.
  - unfold deleteValue. by destruct (values a !! createKey k).
Qed.

Lemma reachable_indexed (a : DummyStore) : reachable Hash a → indexed a.
Proof.
  induction 1 as [c|a ch _ IH|a link _ IH|a h e _ IH|a k v _ IH|a k _ IH].
  - apply indexed_New.
  - exact IH.
  - by apply indexed_createLink.
  - by apply indexed_AddEvidence.
  - exact IH.
  - unfold deleteValue. by destruct (values a !! createKey k).
Qed.

End Indexed.

(** * [FindSegments] against the full scan *)

Section FindSegments.

(** The order in which the run-time visits the keys of a map: any
    enumeration of the keys, each once. *)
Variable rangeKeys : gset string → list string.
Hypothesis rangeKeys_Permutation : ∀ s, rangeKeys s ≡ₚ elements s.

Variable Hash : Link → error + Bytes32.

#[local] Arguments Match : simpl never.

Lemma getSegment_no_error (a : DummyStore) (h : string) :
  (getSegment a h).2 = None.
Proof.
  unfold getSegment.
  destruct (links a !! h); [|done]. by destruct (evidences a !! h).
Qed.

Lemma getSegment_Some (a : DummyStore) (h : string) (s : Segment) :
  (getSegment a h).1 = Some s →
  GetLinkHashString s = h ∧ links a !! h = Some (seg_Link s).
Proof.
  unfold getSegment.
  destruct (links a !! h) as [link|]; [|done].
  destruct (evidences a !! h); simpl; intros [= <-]; done.
Qed.

Lemma matchingSegment_Some (a : DummyStore) (f : SegmentFilter)
    (h : string) (s : Segment) :
  matchingSegment a f h = Some s ↔
  (getSegment a h).1 = Some s ∧ Match f (Some s) = true.
Proof.
  unfold matchingSegment.
  destruct (getSegment a h).1 as [s'|]; simpl.
  - destruct (Match f (Some s')) eqn:Hm; split.
    + by intros [= <-].
    + by intros [[= <-] _].
    + done.
    + intros [[= <-] ?]. congruence.
  - split; [done|]. by intros [? _].
Qed.

(** A matching segment is told apart by the hash it is stored under. *)
Lemma matchingSegment_inj (a : DummyStore) (f : SegmentFilter)
    (h1 h2 : string) (s1 s2 : Segment) :
  matchingSegment a f h1 = Some s1 →
  matchingSegment a f h2 = Some s2 →
  GetLinkHashString s1 = GetLinkHashString s2 →
  h1 = h2 ∧ s1 = s2.
Proof.
  intros H1 H2 Heq.
  pose proof H1 as H1'. pose proof H2 as H2'.
  apply matchingSegment_Some in H1 as [H1 _].
  apply matchingSegment_Some in H2 as [H2 _].
  apply getSegment_Some in H1 as [<- _].
  apply getSegment_Some in H2 as [<- _].
  split; [done|]. rewrite Heq in H1'. congruence.
Qed.

(** The loop of [findHashesSegments] never fails and keeps the matching
    segments, in the order of the visit. *)
Lemma scanHashes_omap (a : DummyStore) (f : SegmentFilter)
    (hs : list string) (acc : list Segment) :
  scanHashes a f hs acc = ((acc ++ omap (matchingSegment a f) hs)%list, None).
Proof.
  revert acc. induction hs as [|h hs IH]; intros acc; simpl.
  - by rewrite app_nil_r.
  - pose proof (getSegment_no_error a h) as Herr.
    unfold matchingSegment at 1.
    destruct (getSegment a h) as [seg err]. simpl in *. subst err.
    destruct seg as [s|]; simpl.
    + destruct (Match f (Some s)); rewrite IH; [|done].
      by rewrite <- app_assoc.
    + by rewrite IH.
Qed.

Lemma filter_allSegments (a : DummyStore) (f : SegmentFilter) :
  List.filter (λ s, Match f (Some s)) (allSegments a) =
    omap (matchingSegment a f) (elements (dom (links a))).
Proof.
  unfold allSegments.
  induction (elements (dom (links a))) as [|h hs IH]; [done|].
  cbn [omap list_omap]. unfold matchingSegment at 1.
  destruct (getSegment a h).1 as [s|]; cbn [mbind option_bind List.filter];
    [|done].
  destruct (Match f (Some s)); by rewrite IH.
Qed.

Lemma NoDup_matching (a : DummyStore) (f : SegmentFilter) (hs : list string) :
  NoDup hs → NoDup (omap (matchingSegment a f) hs).
Proof.
  induction 1 as [|h hs Hnotin Hnd IH]; simpl; [constructor|].
  destruct (matchingSegment a f h) as [s|] eqn:Hs; [|done].
  constructor; [|done].
  intros Hin. apply list_elem_of_omap in Hin as (h' & Hin & Hs').
  destruct (matchingSegment_inj a f h h' s s Hs Hs' eq_refl) as [-> _].
  done.
Qed.

(** Two visits give the same matching segments, up to their order,
    whenever they agree on the hashes of matching segments. *)
Lemma matching_Permutation (a : DummyStore) (f : SegmentFilter)
    (hs1 hs2 : list string) :
  NoDup hs1 → NoDup hs2 →
  (∀ h, is_Some (matchingSegment a f h) → (h ∈ hs1 ↔ h ∈ hs2)) →
  omap (matchingSegment a f) hs1 ≡ₚ omap (matchingSegment a f) hs2.
Proof.
  intros Hnd1 Hnd2 Hsame.
  apply NoDup_Permutation; [by apply NoDup_matching..|].
  intros s. rewrite !list_elem_of_omap.
  split; intros (h & Hin & Hs); exists h; split; try done;
    by apply (Hsame h); [rewrite Hs|].
Qed.

Lemma matching_keys (a : DummyStore) (f : SegmentFilter) (hs : list string)
    (x y : Segment) :
  x ∈ omap (matchingSegment a f) hs →
  y ∈ omap (matchingSegment a f) hs →
  GetLinkHashString x = GetLinkHashString y → x = y.
Proof.
  rewrite !list_elem_of_omap. intros (h1 & _ & H1) (h2 & _ & H2) Heq.
  by destruct (matchingSegment_inj a f h1 h2 x y H1 H2 Heq).
Qed.

Lemma NoDup_rangeKeys (s : gset string) : NoDup (rangeKeys s).
Proof. rewrite rangeKeys_Permutation. apply NoDup_elements. Qed.

Lemma elem_of_rangeKeys (s : gset string) (h : string) :
  h ∈ rangeKeys s ↔ h ∈ s.
Proof. rewrite rangeKeys_Permutation. apply elem_of_elements. Qed.

(** What [findHashesSegments] returns for a set of hashes that holds
    the hash of every stored segment matching the filter. *)
Lemma findHashesSegments_complete (a : DummyStore) (f : SegmentFilter)
    (linkHashes : gset string) :
  (∀ h, is_Some (matchingSegment a f h) → h ∈ linkHashes) →
  findHashesSegments rangeKeys a linkHashes f = (FindSegments_spec a f, None).
Proof.
  intros Hall. unfold findHashesSegments, FindSegments_spec.
  rewrite scanHashes_omap. simpl. do 2 f_equal.
  rewrite filter_allSegments.
  apply sortSegments_order_irrelevant.
  - apply matching_keys.
  - apply matching_Permutation.
    + apply NoDup_rangeKeys.
    + apply NoDup_elements.
    + intros h Hsome. rewrite elem_of_rangeKeys, elem_of_elements.
      split; intros _; [|by apply Hall].
      destruct Hsome as [s Hs].
      apply matchingSegment_Some in Hs as [Hs _].
      apply getSegment_Some in Hs as [_ Hl].
      apply elem_of_dom. by rewrite Hl.
Qed.

Lemma elem_of_unionMaps (a : DummyStore) (mapIDs : list string)
    (acc : gset string) (h : string) :
  h ∈ unionMaps a mapIDs acc ↔
  h ∈ acc ∨ ∃ m l, m ∈ mapIDs ∧ maps a !! m = Some l ∧ h ∈ l.
Proof.
  revert acc. induction mapIDs as [|m ms IH]; intros acc; simpl.
  - split; [by left|]. intros [?|(m & l & Hm & _)]; [done|].
    by apply elem_of_nil in Hm.
  - destruct (maps a !! m) as [l|] eqn:Hl; rewrite IH.
    + rewrite elem_of_union. split.
      * intros [[?|?]|(m' & l' & Hm' & ? & ?)]; [by left| |].
        -- right. exists m, l. split_and!; [left|done..].
        -- right. exists m', l'. split_and!; [by right|done..].
      * intros [?|(m' & l' & Hm' & Hl' & ?)]; [by left; left|].
        apply elem_of_cons in Hm' as [->|Hm'].
        -- left. right. congruence.
        -- right. by exists m', l'.
    + split.
      * intros [?|(m' & l' & Hm' & ? & ?)]; [by left|].
        right. exists m', l'. split_and!; [by right|done..].
      * intros [?|(m' & l' & Hm' & Hl' & ?)]; [by left|].
        apply elem_of_cons in Hm' as [->|Hm']; [congruence|].
        right. by exists m', l'.
Qed.

(** On a store whose links are all indexed in their maps, both scans
    return what the full scan with the whole filter returns. *)
Lemma FindSegments_indexed (a : DummyStore) (filter : SegmentFilter) :
  indexed a →
  (∃ scanned : gset string,
     FindSegments rangeKeys a filter =
       findHashesSegments rangeKeys a scanned filter ∧
     (MapIDs filter = [] ∨ is_Some (PrevLinkHash filter) →
      scanned = dom (links a)) ∧
     (MapIDs filter ≠ [] → PrevLinkHash filter = None →
      ∀ h, h ∈ scanned ↔
           ∃ m l, m ∈ MapIDs filter ∧ maps a !! m = Some l ∧ h ∈ l)) ∧
  FindSegments rangeKeys a filter = (FindSegments_spec a filter, None).
Proof.
  intros Hidx. unfold FindSegments.
  destruct (bool_decide (length (MapIDs filter) = 0%nat)
            || bool_decide (is_Some (PrevLinkHash filter))) eqn:Hall.
  - apply orb_true_iff in Hall. split.
    + exists (dom (links a)). split_and!; [done..|].
      intros Hne Hnone. exfalso.
      destruct Hall as [Hlen|Hp]; apply bool_decide_eq_true in Hlen || apply bool_decide_eq_true in Hp.
      * by destruct (MapIDs filter).
      * rewrite Hnone in Hp. by destruct Hp.
    + apply findHashesSegments_complete. intros h [s Hs].
      apply matchingSegment_Some in Hs as [Hs _].
      apply getSegment_Some in Hs as [_ Hl].
      apply elem_of_dom. by rewrite Hl.
  - apply orb_false_iff in Hall as [Hlen Hp].
    apply bool_decide_eq_false in Hlen, Hp. split.
    + exists (unionMaps a (MapIDs filter) ∅). split_and!; [done| |].
      * intros [Hnil|Hsome]; [|done]. by rewrite Hnil in Hlen.
      * intros _ _ h. rewrite elem_of_unionMaps. split.
        -- intros [Hin|?]; [|done]. by apply not_elem_of_empty in Hin.
        -- by right.
    + apply findHashesSegments_complete. intros h [s Hs].
      apply matchingSegment_Some in Hs as [Hs Hm].
      apply getSegment_Some in Hs as [_ Hl].
      apply elem_of_unionMaps. right.
      specialize (Hidx h _ Hl). simpl in Hidx.
      destruct (maps a !! GetMapID (seg_Link s)) as [l|] eqn:Hmap; simpl in Hidx;
        [|by apply not_elem_of_empty in Hidx].
      exists (GetMapID (seg_Link s)), l. split_and!; [|done..].
      unfold Match in Hm. rewrite !andb_true_iff in Hm.
      destruct Hm as [[_ Hids] _]. unfold matchMapIDs in Hids.
      destruct (MapIDs filter) as [|m ms]; [done|].
      by apply bool_decide_eq_true in Hids.
Qed.

(** C4: on every store built by the operations, [FindSegments] scans
    every stored hash when the filter has no [mapIds] or has a
    [prevLinkHash], and otherwise scans the union of the listed maps;
    in both cases, and for every order of the visit, it returns what
    filtering every stored segment with the whole filter, sorting and
    paginating returns. *)
Theorem C4_FindSegments_refines_full_scan
    (a : DummyStore) (filter : SegmentFilter) :
  reachable Hash a →
  (∃ scanned : gset string,
     FindSegments rangeKeys a filter =
       findHashesSegments rangeKeys a scanned filter ∧
     (MapIDs filter = [] ∨ is_Some (PrevLinkHash filter) →
      scanned = dom (links a)) ∧
     (MapIDs filter ≠ [] → PrevLinkHash filter = None →
      ∀ h, h ∈ scanned ↔
           ∃ m l, m ∈ MapIDs filter ∧ maps a !! m = Some l ∧ h ∈ l)) ∧
  FindSegments rangeKeys a filter = (FindSegments_spec a filter, None).
Proof.
  intros Hreach. apply FindSegments_indexed.
  by apply (reachable_indexed Hash).
Qed.

(** On the reference store a limit of [0] gives no segment. *)
Lemma FindSegments_limit_zero (a : DummyStore) (filter : SegmentFilter) :
  Limit (filter_Pagination filter) = 0%Z →
  FindSegments rangeKeys a filter = ([], None).
Proof.
  intros Hzero. unfold FindSegments, findHashesSegments.
  rewrite scanHashes_omap. simpl. unfold PaginateSegments.
  by rewrite Hzero.
Qed.

End FindSegments.

(** * Examples *)

Section Examples.

Import samples.

Example hashes_are_lowercase_hex :
  Bytes32_String H1 = "4c31" ∧ createKey [Byte.xff; Byte.x0a] = "ff0a".
Proof. by vm_compute. Qed.

Example chain_growth :
  GetLinkHashString <$> (FindSegments elements S3 (inMap "m1" 10)).1 =
    ["4c32"; "4c31"] ∧
  GetLinkHashString <$> (FindSegments elements S3 (inMap "m1" 1)).1 =
    ["4c32"] ∧
  GetLinkHashString <$> (FindSegments elements S3 (inMap "m2" 10)).1 =
    ["4c33"].
Proof. by vm_compute. Qed.

Example reference_store_limit_zero :
  FindSegments elements S3 noFilter = ([], None).
Proof. by vm_compute. Qed.

Example query_of_a_map_filter :
  couchstore.NewSegmentQuery (inMap "m1" 10) =
    (Some (couchstore.JObject
       [("selector",
         couchstore.JObject
           [("docType", couchstore.JString "link");
            ("link.meta.mapId",
             couchstore.JObject
               [("$in", couchstore.JArray [couchstore.JString "m1"])])]);
        ("limit", couchstore.JNumber 10)]),
     None).
Proof. by vm_compute. Qed.

Example unhashable_link_is_refused :
  CreateLink stateHash S3 (root "" "m9") =
    {| store_after := S3;
       returned := (None, Some (Internal "unsupported value"));
       sent := [] |}.
Proof. reflexivity. Qed.

Example create_map_needs_a_title :
  returned (client.CreateMap stateHash initRoot S0 "test" [] []) =
    (None, Some (ValidationError "a title is required")).
Proof. reflexivity. Qed.


Lemma C4_FindSegments_witness :
  reachable stateHash S3 ∧
  FindSegments elements S3 (inMap "m1" 10) =
    (FindSegments_spec S3 (inMap "m1" 10), None).
Proof.
  assert (Hreach : reachable stateHash S3).
  { unfold S3, S2, S1, S0. repeat constructor. }
  split; [exact Hreach|].
  exact (proj2 (C4_FindSegments_refines_full_scan elements
                  (λ s, reflexivity (elements s)) stateHash
                  S3 (inMap "m1" 10) Hreach)).
Defined.

Lemma C5_absent_witness :
  GetSegment S3 H9 = (None, None) ∧ GetEvidences S3 H9 = (None, None).
Proof.
  destruct (C5_absent_is_nil_not_error S3 H9) as [Wseg Wev].
  split; [apply Wseg|apply Wev]; vm_compute; reflexivity.
Defined.

Lemma C6_duplicate_witness :
  let first := AddEvidence S3 H1 E1 in
  let second := AddEvidence (store_after first) H1 E2 in
  returned first = None ∧
  returned second = Some Conflict ∧
  store_after second = store_after first ∧
  GetEvidences (store_after second) H1 = (Some (mk_slice [E1]), None).
Proof.
  pose proof (C6_duplicate_evidence_rejected S3 H1 E1 E2) as W.
  cbv zeta in W.
  destruct W as (Hr & Hs & _ & _); [reflexivity|].
  split_and!.
  - reflexivity.
  - exact Hr.
  - exact Hs.
  - vm_compute. reflexivity.
Defined.

Lemma C8_delivery_witness :
  deliversOnce [7; 4]%nat (NewSavedLinks L1) (sent (CreateLink stateHash S0 L1)) ∧
  deliversOnce [7; 4]%nat (SavedEvidences {[Bytes32_String H1 := E1]})
    (sent (AddEvidence S1 H1 E1)).
Proof.
  destruct (C8_one_event_per_accepted_write stateHash S0 L1 H1 E1) as [Wl _].
  destruct (C8_one_event_per_accepted_write stateHash S1 L1 H1 E1) as [_ We].
  split; [apply Wl|apply We]; reflexivity.
Defined.

Lemma C9_bad_reference_witness :
  client.CreateMap stateHash initRoot S0 "test" [badRef] ["title"] =
    {| store_after := S0;
       returned :=
         (None,
          Some (ValidationError "missing segment or (process and linkHash)"));
       sent := [] |}.
Proof.
  apply (C9_bad_reference_rejected stateHash initRoot S0 "test"
           [badRef] ["title"] badRef).
  - apply list_elem_of_here.
  - reflexivity.
Defined.

Lemma C10_empty_evidences_witness :
  ∃ segment,
    GetSegment S3 H1 = (Some segment, None) ∧
    seg_Link segment = L1 ∧
    meta_Evidences (seg_Meta segment) = mk_slice [] ∧
    is_nil_slice (meta_Evidences (seg_Meta segment)) = false ∧
    GetEvidences S3 H1 = (None, None).
Proof.
  apply (C10_empty_evidences_differ S3 H1 L1); vm_compute; reflexivity.
Defined.

End Examples.

(** * The key-value store *)

Section KeyValue.

Variable Hash : Link → error + Bytes32.
Variable rangeKeys : gset string → list string.

Lemma hexByte_unhexByte (b : Byte.byte) :
  ∃ c1 c2, hexByte b = String c1 (String c2 EmptyString) ∧
           unhexByte c1 c2 = Some b.
Proof. destruct b; eexists _, _; split; reflexivity. Qed.

Lemma decodeHex_two (c1 c2 : ascii) (rest : string) :
  decodeHex (String c1 (String c2 rest)) =
    b ← unhexByte c1 c2; bs ← decodeHex rest; Some (b :: bs).
Proof. done. Qed.

Lemma decodeHex_Bytes32_String (b : Bytes32) :
  decodeHex (Bytes32_String b) = Some b.
Proof.
  induction b as [|x rest IH]; [done|].
  cbn [Bytes32_String].
  destruct (hexByte_unhexByte x) as (c1 & c2 & -> & Hx).
  change (decodeHex (String c1 (String c2 (Bytes32_String rest))) =
          Some (x :: rest)).
  rewrite decodeHex_two, Hx, IH. done.
Qed.

(** Distinct byte strings have distinct hex strings. *)
Lemma Bytes32_String_inj (b1 b2 : Bytes32) :
  Bytes32_String b1 = Bytes32_String b2 → b1 = b2.
Proof.
  intros Heq. apply (f_equal decodeHex) in Heq.
  rewrite !decodeHex_Bytes32_String in Heq. congruence.
Qed.

Lemma createKey_inj (k1 k2 : list Byte.byte) :
  createKey k1 = createKey k2 → k1 = k2.
Proof. apply Bytes32_String_inj. Qed.

(** X1: after [SetValue key value], [GetValue] returns the value for
    that key and what it returned before for every other key; neither
    returns an error. *)
Theorem X1_SetValue_then_GetValue
    (a : DummyStore) (key value key' : list Byte.byte) :
  (SetValue a key value).2 = None ∧
  GetValue (SetValue a key value).1 key' =
    if decide (key' = key) then (Some value, None) else GetValue a key'.
Proof.
  split; [done|]. unfold SetValue, setValue, GetValue. simpl.
  case_decide as Hk.
  - subst. by rewrite lookup_insert_eq.
  - rewrite lookup_insert_ne; [done|]. intros Heq.
    by apply createKey_inj in Heq.
Qed.

(** X2: [DeleteValue key] returns what [GetValue key] returned just
    before; afterwards [GetValue] returns nil for that key and what it
    returned before for every other key. *)
Theorem X2_DeleteValue_returns_and_removes
    (a : DummyStore) (key key' : list Byte.byte) :
  (DeleteValue a key).2 = GetValue a key ∧
  GetValue (DeleteValue a key).1 key' =
    if decide (key' = key) then (None, None) else GetValue a key'.
Proof.
  unfold DeleteValue, deleteValue, GetValue.
  destruct (values a !! createKey key) as [value|] eqn:Hv; simpl.
  - split; [done|]. case_decide as Hk.
    + subst. by rewrite lookup_delete_eq.
    + rewrite lookup_delete_ne; [done|]. intros Heq.
      by apply createKey_inj in Heq.
  - split; [done|]. case_decide as Hk; [|done]. subst. by rewrite Hv.
Qed.

(** Deleting a key that holds no value changes nothing. *)
Lemma DeleteValue_missing (a : DummyStore) (key : list Byte.byte) :
  values a !! createKey key = None →
  DeleteValue a key = (a, (None, None)).
Proof. intros Hv. unfold DeleteValue, deleteValue. by rewrite Hv. Qed.

Lemma getSegment_ext (a1 a2 : DummyStore) (h : string) :
  links a1 = links a2 → evidences a1 = evidences a2 →
  getSegment a1 h = getSegment a2 h.
Proof. intros Hl He. unfold getSegment. by rewrite Hl, He. Qed.

(** [FindSegments] reads the links, the evidences and the maps only. *)
Lemma FindSegments_ext (a1 a2 : DummyStore) (filter : SegmentFilter) :
  links a1 = links a2 → evidences a1 = evidences a2 → maps a1 = maps a2 →
  FindSegments rangeKeys a1 filter = FindSegments rangeKeys a2 filter.
Proof.
  intros Hl He Hm. unfold FindSegments, findHashesSegments.
  assert (Hu : ∀ ids acc, unionMaps a1 ids acc = unionMaps a2 ids acc).
  { induction ids as [|m ids IH]; intros acc; simpl; [done|].
    rewrite Hm. destruct (maps a2 !! m); apply IH. }
  assert (Hs : ∀ hs acc, scanHashes a1 filter hs acc = scanHashes a2 filter hs acc).
  { induction hs as [|h hs IH]; intros acc; simpl; [done|].
    rewrite (getSegment_ext a1 a2 h Hl He).
    destruct (getSegment a2 h) as [seg [err|]]; [done|].
    destruct (Match filter seg); [|apply IH]. destruct seg; apply IH. }
  by rewrite Hl, Hu, Hs.
Qed.

(** X3: the key-value operations and the segment operations do not
    see each other: [SetValue] and [DeleteValue] leave every
    [GetSegment], [GetEvidences] and [FindSegments] answer and the
    registered sinks as they were, and registering a sink, [CreateLink]
    and [AddEvidence] leave every [GetValue] answer as it was. *)
Theorem X3_values_and_segments_are_separate
    (a : DummyStore) (o : Op) (key : list Byte.byte) (linkHash : Bytes32)
    (filter : SegmentFilter) :
  match o with
  | OpSetValue _ _ | OpDeleteValue _ =>
      GetSegment (runOp Hash a o) linkHash = GetSegment a linkHash ∧
      GetEvidences (runOp Hash a o) linkHash = GetEvidences a linkHash ∧
      FindSegments rangeKeys (runOp Hash a o) filter =
        FindSegments rangeKeys a filter ∧
      eventChans (runOp Hash a o) = eventChans a
  | _ => GetValue (runOp Hash a o) key = GetValue a key
  end.
Proof.
  destruct o as [c|link|h e|k v|k]; simpl.
  - done.
  - unfold CreateLink, createLink, GetValue. by destruct (Hash link).
  - unfold AddEvidence, addEvidence, GetValue.
    by destruct (Evidences_AddEvidence _ e).
  - split_and!; try done. by apply FindSegments_ext.
  - unfold DeleteValue, deleteValue.
    destruct (values a !! createKey k); split_and!; try done.
    by apply FindSegments_ext.
Qed.

End KeyValue.

(** * Reading back what was written *)

Section ReadingBack.

Variable Hash : Link → error + Bytes32.

Lemma reachable_runOp (a : DummyStore) (o : Op) :
  reachable Hash a → reachable Hash (runOp Hash a o).
Proof. intros Hr. destruct o; simpl; by constructor. Qed.

Lemma reachable_runOps (a : DummyStore) (ops : list Op) :
  reachable Hash a → reachable Hash (runOps Hash a ops).
Proof.
  revert a. induction ops as [|o ops IH]; intros a Hr; [done|].
  apply IH. by apply reachable_runOp.
Qed.

Lemma config_runOp (a : DummyStore) (o : Op) :
  config (runOp Hash a o) = config a.
Proof.
  destruct o as [c|link|h e|k v|k]; simpl; try done.
  - unfold CreateLink, createLink. by destruct (Hash link).
  - unfold AddEvidence, addEvidence. by destruct (Evidences_AddEvidence _ e).
  - unfold DeleteValue, deleteValue. by destruct (values a !! createKey k).
Qed.

(** X4: whatever operations were run on a store created by [New], the
    information [GetInfo] returns is the name and the description of
    the package with the version and the commit of the configuration
    given to [New]; [GetInfo] returns no error. *)
Theorem X4_GetInfo_reports_the_configuration (c : Config) (ops : list Op) :
  GetInfo (runOps Hash (New c) ops) =
    (Some {| info_Name := "dummy";
             info_Description := "Indigo's Dummy Store";
             info_Version := Version c;
             info_Commit := Commit c |}, None).
Proof.
  assert (Hc : ∀ a, config (runOps Hash a ops) = config a).
  { unfold runOps. induction ops as [|o ops IH]; intros a; [done|].
    simpl. by rewrite IH, config_runOp. }
  unfold GetInfo. by rewrite Hc.
Qed.

(** X5: after a [CreateLink] that returned the hash [linkHash],
    [GetSegment linkHash] returns the link under its hex hash together
    with the evidences the store already held for that hash, and
    [GetSegment] of every other hash returns what it returned before. *)
Theorem X5_CreateLink_then_GetSegment
    (a : DummyStore) (link : Link) (linkHash linkHash' : Bytes32) :
  (returned (CreateLink Hash a link)).1 = Some linkHash →
  GetSegment (store_after (CreateLink Hash a link)) linkHash' =
    if decide (linkHash' = linkHash)
    then (Some {| seg_Link := link;
                  seg_Meta :=
                    {| meta_Evidences :=
                         default (mk_slice [])
                           (evidences a !! Bytes32_String linkHash);
                       meta_LinkHash := Bytes32_String linkHash |} |}, None)
    else GetSegment a linkHash'.
Proof.
  unfold CreateLink, createLink, GetSegment, getSegment.
  destruct (Hash link) as [err|h]; simpl; [done|]. intros [= ->].
  case_decide as Hh.
  - subst. rewrite lookup_insert_eq.
    by destruct (evidences a !! Bytes32_String linkHash).
  - rewrite lookup_insert_ne; [done|]. intros Heq.
    by apply Bytes32_String_inj in Heq.
Qed.

Lemma hashKeyed_createLink (a : DummyStore) (link : Link) :
  hashKeyed Hash a → hashKeyed Hash (store_after (createLink Hash a link)).
Proof.
  intros Hk. destruct (Hash link) as [err|linkHash] eqn:HH.
  - by rewrite (createLink_rejected Hash a link err HH).
  - unfold hashKeyed. rewrite (createLink_links Hash a link linkHash HH).
    apply map_Forall_insert_2; [by exists linkHash|done].
Qed.

Lemma reachable_hashKeyed (a : DummyStore) :
  reachable Hash a → hashKeyed Hash a.
Proof.
  induction 1 as [c|a ch _ IH|a link _ IH|a h e _ IH|a k v _ IH|a k _ IH].
  - unfold hashKeyed. simpl. apply map_Forall_empty.
  - exact IH.
  - by apply hashKeyed_createLink.
  - unfold AddEvidence, addEvidence.
    by destruct (Evidences_AddEvidence _ e).
  - exact IH.
  - unfold deleteValue. by destruct (values a !! createKey k).
Qed.

(** X6: on a store built by the operations, the link of the segment
    that [GetSegment linkHash] returns hashes to [linkHash], and the
    segment carries the hex string of [linkHash]. *)
Theorem X6_GetSegment_link_hashes_to_its_key
    (a : DummyStore) (linkHash : Bytes32) (segment : Segment) :
  reachable Hash a →
  (GetSegment a linkHash).1 = Some segment →
  Hash (seg_Link segment) = inr linkHash ∧
  GetLinkHashString segment = Bytes32_String linkHash.
Proof.
  intros Hr Hs. unfold GetSegment in Hs.
  apply getSegment_Some in Hs as [Hh Hl]. split; [|done].
  destruct (reachable_hashKeyed a Hr _ _ Hl) as (h & HH & Heq).
  apply Bytes32_String_inj in Heq. by subst.
Qed.

(** X7: a [CreateLink] or an [AddEvidence] that returns an error
    returns no hash, leaves the store as it was and sends no event. *)
Theorem X7_failed_write_changes_nothing
    (a : DummyStore) (link : Link) (linkHash : Bytes32) (e : Evidence) :
  ((returned (CreateLink Hash a link)).2 ≠ None →
   (returned (CreateLink Hash a link)).1 = None ∧
   store_after (CreateLink Hash a link) = a ∧
   sent (CreateLink Hash a link) = []) ∧
  (returned (AddEvidence a linkHash e) ≠ None →
   store_after (AddEvidence a linkHash e) = a ∧
   sent (AddEvidence a linkHash e) = []).
Proof.
  split.
  - unfold CreateLink, createLink. by destruct (Hash link).
  - unfold AddEvidence, addEvidence.
    by destruct (Evidences_AddEvidence _ e).
Qed.

(** X8: [AddEvidence] does not ask for the link to exist: on a hash
    without evidence it is accepted whether or not a link is stored,
    and a link created later under that hash is read back with the
    evidence. *)
Theorem X8_evidence_may_precede_its_link
    (a : DummyStore) (link : Link) (linkHash : Bytes32) (e : Evidence) :
  evidences a !! Bytes32_String linkHash = None →
  Hash link = inr linkHash →
  let added := AddEvidence a linkHash e in
  let created := CreateLink Hash (store_after added) link in
  returned added = None ∧
  links (store_after added) = links a ∧
  GetEvidences (store_after added) linkHash = (Some (mk_slice [e]), None) ∧
  GetSegment (store_after created) linkHash =
    (Some {| seg_Link := link;
             seg_Meta := {| meta_Evidences := mk_slice [e];
                            meta_LinkHash := Bytes32_String linkHash |} |},
     None).
Proof.
  intros He HH added created. subst added created.
  unfold AddEvidence, addEvidence, Evidences_AddEvidence.
  unfold Evidences in *. rewrite He. simpl. split_and!; try done.
  - unfold GetEvidences. simpl. by rewrite lookup_insert_eq.
  - unfold CreateLink, createLink, GetSegment, getSegment. rewrite HH. simpl.
    by rewrite !lookup_insert_eq.
Qed.

Lemma grows_runOp (a : DummyStore) (o : Op) :
  (∀ h, is_Some (links a !! h) → is_Some (links (runOp Hash a o) !! h)) ∧
  (∀ h, is_Some (evidences a !! h) → is_Some (evidences (runOp Hash a o) !! h)) ∧
  (∀ m l h, maps a !! m = Some l → h ∈ l →
            ∃ l', maps (runOp Hash a o) !! m = Some l' ∧ h ∈ l').
Proof.
  destruct o as [c|link|h e|k v|k]; simpl.
  - split_and!; eauto.
  - destruct (Hash link) as [err|linkHash] eqn:HH.
    + unfold CreateLink. rewrite (createLink_rejected Hash a link err HH).
      split_and!; eauto.
    + unfold CreateLink. split_and!.
      * intros h Hh. rewrite (createLink_links Hash a link linkHash HH).
        rewrite lookup_insert. by case_decide.
      * unfold createLink. by rewrite HH.
      * intros m l h Hm Hh. rewrite (createLink_maps Hash a link linkHash HH).
        rewrite lookup_insert. case_decide as Hmap.
        -- subst m. rewrite Hm. simpl. eexists. split; [done|].
           by apply elem_of_union_l.
        -- eauto.
  - unfold AddEvidence, addEvidence.
    destruct (Evidences_AddEvidence _ e) as [err|evs]; simpl;
      split_and!; eauto.
    intros h' Hh'. rewrite lookup_insert. by case_decide.
  - split_and!; eauto.
  - unfold DeleteValue, deleteValue.
    destruct (values a !! createKey k); simpl; split_and!; eauto.
Qed.

(** X9: no operation removes a link, an evidence set or a member of a
    map: a segment or evidences that can be read before a sequence of
    operations can be read after it, and a hash stays in its map. *)
Theorem X9_nothing_is_removed
    (a : DummyStore) (ops : list Op) (linkHash : Bytes32) :
  (is_Some (GetSegment a linkHash).1 →
   is_Some (GetSegment (runOps Hash a ops) linkHash).1) ∧
  (is_Some (GetEvidences a linkHash).1 →
   is_Some (GetEvidences (runOps Hash a ops) linkHash).1) ∧
  (∀ m l, maps a !! m = Some l → Bytes32_String linkHash ∈ l →
          ∃ l', maps (runOps Hash a ops) !! m = Some l' ∧
                Bytes32_String linkHash ∈ l').
Proof.
  revert a. induction ops as [|o ops IH]; intros a.
  - split_and!; eauto.
  - destruct (grows_runOp a o) as (Hl & He & Hm).
    destruct (IH (runOp Hash a o)) as (IHl & IHe & IHm).
    assert (Hseg : ∀ b, is_Some (GetSegment b linkHash).1 ↔
                        is_Some (links b !! Bytes32_String linkHash)).
    { intros b. unfold GetSegment, getSegment.
      destruct (links b !! Bytes32_String linkHash);
        [|simpl; split; intros Hn; by apply is_Some_None in Hn].
      destruct (evidences b !! Bytes32_String linkHash); simpl;
        split; eauto. }
    split_and!.
    + intros Hs. apply IHl. apply Hseg. apply Hl. by apply Hseg.
    + intros Hs. apply IHe. unfold GetEvidences in *. simpl in *. by apply He.
    + intros m l Hml Hin. destruct (Hm m l _ Hml Hin) as (l1 & Hl1 & Hin1).
      by apply (IHm m l1).
Qed.

End ReadingBack.

(** * [GetMapIDs] *)

Section StringOrder.

Lemma leb_ltb (s1 s2 : string) : String.leb s1 s2 = negb (String.ltb s2 s1).
Proof.
  unfold String.leb, String.ltb. rewrite (String.compare_antisym s2 s1).
  by destruct (String.compare s1 s2).
Qed.

#[local] Instance stringLe_total : Total stringLe.
Proof.
  intros s1 s2. unfold stringLe. rewrite !leb_ltb.
  destruct (String.ltb s2 s1) eqn:H21; [|by left].
  right. by rewrite (ltb_asym _ _ H21).
Qed.

#[local] Instance stringLe_trans : Transitive stringLe.
Proof.
  intros s1 s2 s3. unfold stringLe. rewrite !leb_ltb, !negb_true_iff.
  intros H21 H32. apply not_true_is_false. intros H31.
  destruct (ltb_between s3 s2 s1 H31); congruence.
Qed.

#[local] Instance stringLe_antisym : AntiSymm (=) stringLe.
Proof. intros s1 s2. apply String.leb_antisym. Qed.

Lemma stringLe_ne_stringLt (s1 s2 : string) :
  stringLe s1 s2 → s1 ≠ s2 → stringLt s1 s2.
Proof.
  unfold stringLe, stringLt. rewrite leb_ltb, negb_true_iff.
  intros H21 Hne. destruct (String.ltb s1 s2) eqn:H12; [done|].
  by destruct Hne; apply ltb_neither.
Qed.

Lemma sortStrings_Permutation (l : list string) : sortStrings l ≡ₚ l.
Proof. apply merge_sort_Permutation. Qed.

(** Sorting a list without duplicates gives a strictly ascending
    list. *)
Lemma sortStrings_strict (l : list string) :
  NoDup l → StronglySorted stringLt (sortStrings l).
Proof.
  intros Hnd.
  assert (Hs : StronglySorted stringLe (sortStrings l))
    by apply (StronglySorted_merge_sort stringLe).
  assert (Hnd' : NoDup (sortStrings l)) by by rewrite sortStrings_Permutation.
  induction Hs as [|x xs Hxs IH Hall]; [constructor|].
  apply NoDup_cons in Hnd' as [Hx Hnd'].
  constructor; [by apply IH|].
  rewrite Forall_forall in Hall |- *. intros y Hy.
  apply stringLe_ne_stringLt; [by apply Hall|]. intros ->. done.
Qed.

(** Two lists with the same members, both without duplicates, sort to
    the same list. *)
Lemma sortStrings_same_members (l1 l2 : list string) :
  NoDup l1 → NoDup l2 → (∀ x, x ∈ l1 ↔ x ∈ l2) →
  sortStrings l1 = sortStrings l2.
Proof.
  intros Hnd1 Hnd2 Hsame.
  apply (StronglySorted_unique stringLe).
  - apply (StronglySorted_merge_sort stringLe).
  - apply (StronglySorted_merge_sort stringLe).
  - rewrite !sortStrings_Permutation. by apply NoDup_Permutation.
Qed.

End StringOrder.

Section GetMapIDs.

Variable rangeKeys : gset string → list string.
Hypothesis rangeKeys_Permutation : ∀ s, rangeKeys s ≡ₚ elements s.

Variable MatchLink : MapFilter → Link → bool.
Variable PaginateStrings : Pagination → list string → list string.

Lemma hasMatchingLink_true (a : DummyStore) (filter : MapFilter)
    (linkHashes : list string) :
  hasMatchingLink MatchLink a filter linkHashes = true ↔
  ∃ h link, h ∈ linkHashes ∧ links a !! h = Some link ∧
            MatchLink filter link = true.
Proof.
  induction linkHashes as [|h hs IH]; simpl.
  - split; [done|]. intros (h & link & Hin & _). by apply elem_of_nil in Hin.
  - destruct (links a !! h) as [link|] eqn:Hl.
    + destruct (MatchLink filter link) eqn:Hm.
      * split; [|done]. intros _. exists h, link. split_and!; [left|done..].
      * rewrite IH. split.
        -- intros (h' & link' & Hin & ? & ?). exists h', link'.
           split_and!; [by right|done..].
        -- intros (h' & link' & Hin & Hl' & Hm').
           apply elem_of_cons in Hin as [->|Hin]; [congruence|].
           by exists h', link'.
    + rewrite IH. split.
      * intros (h' & link' & Hin & ? & ?). exists h', link'.
        split_and!; [by right|done..].
      * intros (h' & link' & Hin & Hl' & Hm').
        apply elem_of_cons in Hin as [->|Hin]; [congruence|].
        by exists h', link'.
Qed.

Lemma collectMapIDs_elem_of (a : DummyStore) (filter : MapFilter)
    (keys mapIDs : list string) (m : string) :
  m ∈ collectMapIDs rangeKeys MatchLink a filter keys mapIDs ↔
  m ∈ mapIDs ∨
  (m ∈ keys ∧ ∃ l, maps a !! m = Some l ∧
                   hasMatchingLink MatchLink a filter (rangeKeys l) = true).
Proof.
  revert mapIDs. induction keys as [|k keys IH]; intros mapIDs; simpl.
  - split; [by left|]. intros [?|[Hin _]]; [done|]. by apply elem_of_nil in Hin.
  - destruct (maps a !! k) as [l|] eqn:Hk.
    + destruct (hasMatchingLink MatchLink a filter (rangeKeys l)) eqn:Hl;
        rewrite IH.
      * rewrite elem_of_app, list_elem_of_singleton. split.
        -- intros [[?| ->]|[Hin Hex]]; [by left| |].
           ++ right. split; [left|]. by exists l.
           ++ right. split; [by right|done].
        -- intros [?|[Hin Hex]]; [by left; left|].
           apply elem_of_cons in Hin as [->|Hin]; [by left; right|].
           by right.
      * split.
        -- intros [?|[Hin Hex]]; [by left|]. right. split; [by right|done].
        -- intros [?|[Hin (l' & Hl' & Hex)]]; [by left|].
           apply elem_of_cons in Hin as [->|Hin]; [congruence|].
           right. split; [done|]. by exists l'.
    + rewrite IH. split.
      * intros [?|[Hin Hex]]; [by left|]. right. split; [by right|done].
      * intros [?|[Hin (l' & Hl' & Hex)]]; [by left|].
        apply elem_of_cons in Hin as [->|Hin]; [congruence|].
        right. split; [done|]. by exists l'.
Qed.

Lemma collectMapIDs_NoDup (a : DummyStore) (filter : MapFilter)
    (keys mapIDs : list string) :
  NoDup (mapIDs ++ keys) →
  NoDup (collectMapIDs rangeKeys MatchLink a filter keys mapIDs).
Proof.
  revert mapIDs. induction keys as [|k keys IH]; intros mapIDs Hnd; simpl.
  - by rewrite app_nil_r in Hnd.
  - assert (Hskip : NoDup (mapIDs ++ keys)).
    { eapply NoDup_app in Hnd as (H1 & H2 & H3). apply NoDup_cons in H3 as [_ H3].
      apply NoDup_app. split_and!; [done| |done].
      intros x Hx Hin. apply (H2 x Hx). by right. }
    destruct (maps a !! k) as [l|]; [|by apply IH].
    destruct (hasMatchingLink MatchLink a filter (rangeKeys l)); [|by apply IH].
    apply IH. by rewrite <- app_assoc.
Qed.

(** The map ids that the loops of [GetMapIDs] collect. *)
Lemma collected_elem_of (a : DummyStore) (filter : MapFilter) (m : string) :
  m ∈ collectMapIDs rangeKeys MatchLink a filter (rangeKeys (dom (maps a))) [] ↔
  ∃ l h link, maps a !! m = Some l ∧ h ∈ l ∧
              links a !! h = Some link ∧ MatchLink filter link = true.
Proof.
  rewrite collectMapIDs_elem_of. split.
  - intros [Hin|[_ (l & Hl & Hex)]]; [by apply elem_of_nil in Hin|].
    apply hasMatchingLink_true in Hex as (h & link & Hin & ? & ?).
    rewrite rangeKeys_Permutation, elem_of_elements in Hin.
    by exists l, h, link.
  - intros (l & h & link & Hl & Hin & ? & ?). right. split.
    + rewrite rangeKeys_Permutation, elem_of_elements.
      apply elem_of_dom. by rewrite Hl.
    + exists l. split; [done|]. apply hasMatchingLink_true.
      exists h, link. split_and!; [|done..].
      by rewrite rangeKeys_Permutation, elem_of_elements.
Qed.

Lemma collected_NoDup (a : DummyStore) (filter : MapFilter) :
  NoDup (collectMapIDs rangeKeys MatchLink a filter (rangeKeys (dom (maps a))) []).
Proof.
  apply collectMapIDs_NoDup. simpl.
  rewrite rangeKeys_Permutation. apply NoDup_elements.
Qed.

Lemma sortedMapIDs_elem_of (a : DummyStore) (filter : MapFilter) (m : string) :
  m ∈ sortedMapIDs rangeKeys MatchLink a filter ↔
  ∃ l h link, maps a !! m = Some l ∧ h ∈ l ∧
              links a !! h = Some link ∧ MatchLink filter link = true.
Proof.
  unfold sortedMapIDs. rewrite sortStrings_Permutation.
  apply collected_elem_of.
Qed.

(** X10: the list that [GetMapIDs] hands to [PaginateStrings] is
    strictly ascending, hence without duplicates, and holds exactly the
    map ids whose set has the hash of a stored link that the filter
    matches; [GetMapIDs] returns no error. *)
Theorem X10_GetMapIDs_sorted_matching_maps
    (a : DummyStore) (filter : MapFilter) :
  GetMapIDs rangeKeys MatchLink PaginateStrings a filter =
    (PaginateStrings (mapfilter_Pagination filter)
       (sortedMapIDs rangeKeys MatchLink a filter), None) ∧
  StronglySorted stringLt (sortedMapIDs rangeKeys MatchLink a filter) ∧
  ∀ m, m ∈ sortedMapIDs rangeKeys MatchLink a filter ↔
       ∃ l h link, maps a !! m = Some l ∧ h ∈ l ∧
                   links a !! h = Some link ∧ MatchLink filter link = true.
Proof.
  split_and!; [done| |].
  - apply sortStrings_strict. apply collected_NoDup.
  - apply sortedMapIDs_elem_of.
Qed.

(** X12: on a store built by the operations, the map id of every stored
    link that the filter matches is in the list that [GetMapIDs] hands
    to [PaginateStrings]. *)
Theorem X12_GetMapIDs_misses_no_map
    (Hash : Link → error + Bytes32) (a : DummyStore) (filter : MapFilter)
    (h : string) (link : Link) :
  reachable Hash a →
  links a !! h = Some link →
  MatchLink filter link = true →
  GetMapID link ∈ sortedMapIDs rangeKeys MatchLink a filter.
Proof.
  intros Hr Hl Hm. apply sortedMapIDs_elem_of.
  pose proof (reachable_indexed Hash a Hr h link Hl) as Hidx. simpl in Hidx.
  destruct (maps a !! GetMapID link) as [l|] eqn:Hmap; simpl in Hidx;
    [|by apply not_elem_of_empty in Hidx].
  by exists l, h, link.
Qed.

End GetMapIDs.

(** X11: the answer of [GetMapIDs] does not depend on the order in
    which the run-time visits the maps and their sets. *)
Theorem X11_GetMapIDs_order_irrelevant
    (rangeKeys1 rangeKeys2 : gset string → list string)
    (MatchLink : MapFilter → Link → bool)
    (PaginateStrings : Pagination → list string → list string)
    (a : DummyStore) (filter : MapFilter) :
  (∀ s, rangeKeys1 s ≡ₚ elements s) →
  (∀ s, rangeKeys2 s ≡ₚ elements s) →
  GetMapIDs rangeKeys1 MatchLink PaginateStrings a filter =
    GetMapIDs rangeKeys2 MatchLink PaginateStrings a filter.
Proof.
  intros H1 H2. unfold GetMapIDs. do 2 f_equal. unfold sortedMapIDs.
  apply sortStrings_same_members.
  - by apply collected_NoDup.
  - by apply collected_NoDup.
  - intros m. by rewrite (collected_elem_of rangeKeys1 H1),
                        (collected_elem_of rangeKeys2 H2).
Qed.

(** * Reading a filter back from its query *)

Section QueryRoundTrips.

Import couchstore.








#[local] Arguments jsonField : simpl never.






End QueryRoundTrips.

(** * The mock adapter records the calls *)

Section MockAdapter.

Import storetesting.

Variable Any : Type.
Variable Filter : Type.

Lemma wrapInt_succ (z : Z) : wrapInt (wrapInt z + 1) = wrapInt (z + 1).
Proof.
  unfold wrapInt.
  replace ((z + 2 ^ 63) mod 2 ^ 64 - 2 ^ 63 + 1 + 2 ^ 63)%Z
    with ((z + 2 ^ 63) mod 2 ^ 64 + 1)%Z by lia.
  replace (z + 1 + 2 ^ 63)%Z with ((z + 2 ^ 63) + 1)%Z by lia.
  by rewrite Zplus_mod_idemp_l.
Qed.

(** Below [2^63] calls the count is the number of calls itself. *)
Lemma wrapInt_small (z : Z) : (0 ≤ z < 2 ^ 63)%Z → wrapInt z = z.
Proof. intros Hz. unfold wrapInt. rewrite Z.mod_small; lia. Qed.

Lemma record_recorded {A R} (m : Mock A R) (args : list (option A))
    (x : option A) :
  recorded m args → recorded (record m x) (args ++ [x])%list.
Proof.
  intros (Hw & Hc & Hl). unfold recorded, record. simpl. split_and!.
  - by rewrite Hw.
  - rewrite Hc, wrapInt_succ, length_app. simpl. f_equal. lia.
  - by rewrite last_snoc.
Qed.

(** What a sequence of calls records in one mock, given which calls
    belong to it. *)
Lemma calls_recorded {A R} (get : MockAdapter Any Filter → Mock A R)
    (arg : Call Filter → option (option A)) :
  (∀ a c, get (call a c) =
          match arg c with
          | Some x => record (get a) x
          | None => get a
          end) →
  ∀ (cs : list (Call Filter)) (a : MockAdapter Any Filter)
    (args : list (option A)),
    recorded (get a) args →
    recorded (get (calls a cs)) (args ++ omap arg cs)%list ∧
    Fn (get (calls a cs)) = Fn (get a).
Proof.
  intros Hget. unfold calls.
  induction cs as [|c cs IH]; intros a args Hrec; simpl.
  - by rewrite app_nil_r.
  - destruct (arg c) as [x|] eqn:Hc.
    + destruct (IH (call a c) (args ++ [x])%list) as [IH1 IH2].
      { rewrite Hget, Hc. by apply record_recorded. }
      rewrite <- app_assoc in IH1. split; [done|].
      by rewrite IH2, Hget, Hc.
    + destruct (IH (call a c) args) as [IH1 IH2].
      { by rewrite Hget, Hc. }
      split; [done|]. by rewrite IH2, Hget, Hc.
Qed.

Lemma fresh_recorded {A R} (m : Mock A R) : fresh m → recorded m [].
Proof. intros (Hc & Hw & Hl). unfold recorded. by rewrite Hc, Hw, Hl. Qed.

Lemma calls_GetInfo_count (cs : list (Call Filter)) (a : MockAdapter Any Filter) :
  GetInfo_CalledCount (mockGetInfo (calls a cs)) =
    Nat.iter (length (List.filter isGetInfo cs)) (λ z, wrapInt (z + 1))
             (GetInfo_CalledCount (mockGetInfo a)).
Proof.
  unfold calls. revert a.
  induction cs as [|c cs IH]; intros a; [done|].
  cbn [fold_left]. rewrite IH.
  destruct c; try done.
  cbn [List.filter isGetInfo length]. by rewrite Nat.iter_succ_r.
Qed.

Lemma iter_wrapInt (n : nat) :
  Nat.iter n (λ z, wrapInt (z + 1)) 0%Z = wrapInt (Z.of_nat n).
Proof.
  induction n as [|n IH]; [done|].
  change (wrapInt (Nat.iter n (λ z, wrapInt (z + 1)) 0%Z + 1) =
          wrapInt (Z.of_nat (S n))).
  rewrite IH, wrapInt_succ. f_equal. lia.
Qed.

(** X15: after any sequence of calls on a mock adapter on which nothing
    had been called, each mock holds in [CalledWith] the arguments of
    the calls of its own method, in the order of the calls, its
    [CalledCount] is their number and its [LastCalledWith] the last of
    them (nil when there was none); its [Fn] is as it was. *)
Theorem X15_mock_records_its_calls
    (a : MockAdapter Any Filter) (cs : list (Call Filter)) :
  fresh (mockAddDidSaveChannel a) →
  fresh (mockSaveSegment a) →
  fresh (mockGetSegment a) →
  fresh (mockDeleteSegment a) →
  fresh (mockFindSegments a) →
  fresh (mockGetMapIDs a) →
  let a' := calls a cs in
  (recorded (mockAddDidSaveChannel a') (omap argAddDidSaveChannel cs) ∧
   Fn (mockAddDidSaveChannel a') = Fn (mockAddDidSaveChannel a)) ∧
  (recorded (mockSaveSegment a') (omap argSaveSegment cs) ∧
   Fn (mockSaveSegment a') = Fn (mockSaveSegment a)) ∧
  (recorded (mockGetSegment a') (omap argGetSegment cs) ∧
   Fn (mockGetSegment a') = Fn (mockGetSegment a)) ∧
  (recorded (mockDeleteSegment a') (omap argDeleteSegment cs) ∧
   Fn (mockDeleteSegment a') = Fn (mockDeleteSegment a)) ∧
  (recorded (mockFindSegments a') (omap argFindSegments cs) ∧
   Fn (mockFindSegments a') = Fn (mockFindSegments a)) ∧
  (recorded (mockGetMapIDs a') (omap argGetMapIDs cs) ∧
   Fn (mockGetMapIDs a') = Fn (mockGetMapIDs a)) ∧
  (GetInfo_CalledCount (mockGetInfo a) = 0%Z →
   GetInfo_CalledCount (mockGetInfo a') =
     wrapInt (Z.of_nat (length (List.filter isGetInfo cs)))).
Proof.
  intros F1 F2 F3 F4 F5 F6 a'. subst a'.
  split; [|split; [|split; [|split; [|split; [|split]]]]];
    [..|intros H0; by rewrite calls_GetInfo_count, H0, iter_wrapInt].
  all: match goal with
       | |- recorded (?get _) (omap ?arg _) ∧ _ =>
           apply (calls_recorded (λ b, get b) arg
                    ltac:(intros ? c; by destruct c) cs a []);
           by apply fresh_recorded
       end.
Qed.

End MockAdapter.

(** * A new store, and the maps after [CreateLink] *)

Section NewStore.

Variable Hash : Link → error + Bytes32.
Variable rangeKeys : gset string → list string.
Hypothesis rangeKeys_Permutation : ∀ s, rangeKeys s ≡ₚ elements s.

Variable MatchLink : MapFilter → Link → bool.
Variable PaginateStrings : Pagination → list string → list string.

Lemma rangeKeys_empty : rangeKeys ∅ = [].
Proof.
  apply Permutation_nil_r. rewrite rangeKeys_Permutation.
  by rewrite elements_empty.
Qed.

Lemma unionMaps_New (c : Config) (mapIDs : list string) :
  unionMaps (New c) mapIDs ∅ = ∅.
Proof. induction mapIDs as [|m ms IH]; [done|]. simpl. by rewrite lookup_empty. Qed.

(** X16: after a [CreateLink] that returned a hash, the map id of the
    link is in the list that [GetMapIDs] hands to [PaginateStrings],
    for every filter that matches the link. *)
Theorem X16_CreateLink_then_GetMapIDs
    (a : DummyStore) (link : Link) (linkHash : Bytes32) (filter : MapFilter) :
  (returned (CreateLink Hash a link)).1 = Some linkHash →
  MatchLink filter link = true →
  GetMapID link ∈
    sortedMapIDs rangeKeys MatchLink (store_after (CreateLink Hash a link)) filter.
Proof.
  intros Hret Hm.
  assert (HH : Hash link = inr linkHash).
  { unfold CreateLink, createLink in Hret.
    destruct (Hash link); simpl in Hret; congruence. }
  apply (sortedMapIDs_elem_of rangeKeys rangeKeys_Permutation).
  unfold CreateLink.
  exists (default ∅ (maps a !! GetMapID link) ∪ {[Bytes32_String linkHash]}),
         (Bytes32_String linkHash), link.
  rewrite (createLink_maps Hash a link linkHash HH).
  rewrite (createLink_links Hash a link linkHash HH).
  rewrite !lookup_insert_eq. split_and!; try done.
  apply elem_of_union_r. by apply elem_of_singleton.
Qed.

(** X17: a store made by [New] is empty: [GetSegment], [GetEvidences]
    and [GetValue] return nil, [FindSegments] returns no segment, and
    [GetMapIDs] paginates the empty list; none returns an error. *)
Theorem X17_New_store_is_empty
    (c : Config) (linkHash : Bytes32) (key : list Byte.byte)
    (filter : SegmentFilter) (mapFilter : MapFilter) :
  GetSegment (New c) linkHash = (None, None) ∧
  GetEvidences (New c) linkHash = (None, None) ∧
  GetValue (New c) key = (None, None) ∧
  FindSegments rangeKeys (New c) filter = ([], None) ∧
  GetMapIDs rangeKeys MatchLink PaginateStrings (New c) mapFilter =
    (PaginateStrings (mapfilter_Pagination mapFilter) [], None).
Proof.
  split_and!; try done.
  - unfold FindSegments, findHashesSegments.
    assert (Hnone : (if bool_decide (length (MapIDs filter) = 0%nat)
                        || bool_decide (is_Some (PrevLinkHash filter))
                     then dom (links (New c))
                     else unionMaps (New c) (MapIDs filter) ∅) = ∅).
    { destruct (_ || _); [apply dom_empty_L|apply unionMaps_New]. }
    rewrite Hnone, rangeKeys_empty. cbn [scanHashes].
    change (sortSegments []) with (@nil Segment).
    unfold PaginateSegments. by rewrite drop_nil, take_nil.
  - unfold GetMapIDs, sortedMapIDs. simpl.
    rewrite dom_empty_L, rangeKeys_empty. done.
Qed.

End NewStore.

(** * Examples of the operations beyond the segments *)

Section MoreExamples.

Import samples.

Example values_round_trip :
  GetValue SV K1 = (Some V1, None) ∧
  GetValue SV K2 = (None, None) ∧
  DeleteValue SV K1 = (S3, (Some V1, None)) ∧
  DeleteValue SV K2 = (SV, (None, None)).
Proof. by vm_compute. Qed.

Example map_ids_of_the_sample_store :
  GetMapIDs elements processOf page S3 anyMap = (["m1"; "m2"], None).
Proof. by vm_compute. Qed.

Example map_query_of_a_filter :
  couchstore.NewMapQuery
    {| mapfilter_Pagination := {| Offset := 5; Limit := 0 |};
       mapfilter_Process := "p" |} =
    (Some (couchstore.JObject
       [("selector",
         couchstore.JObject
           [("docType", couchstore.JString "map");
            ("process", couchstore.JString "p")]);
        ("skip", couchstore.JNumber 5)]), None).
Proof. by vm_compute. Qed.

Example mock_answers :
  (storetesting.GetSegment unit unit mock0 (Some H1)).2 =
    (None, Some (Internal "error")) ∧
  (storetesting.GetMapIDs unit unit mock0 None).2 = (nil_slice, None).
Proof. by vm_compute. Qed.

Lemma X5_CreateLink_GetSegment_witness :
  GetSegment (store_after (CreateLink stateHash S2 L3)) H3 =
    (Some {| seg_Link := L3;
             seg_Meta := {| meta_Evidences := mk_slice [];
                            meta_LinkHash := "4c33" |} |}, None) ∧
  GetSegment (store_after (CreateLink stateHash S2 L3)) H1 = GetSegment S2 H1.
Proof.
  split.
  - rewrite (X5_CreateLink_then_GetSegment stateHash S2 L3 H3 H3);
      [|reflexivity]. vm_compute. reflexivity.
  - rewrite (X5_CreateLink_then_GetSegment stateHash S2 L3 H3 H1);
      [|reflexivity]. vm_compute. reflexivity.
Defined.

Lemma X6_hash_of_read_segment_witness :
  ∃ segment,
    (GetSegment S3 H2).1 = Some segment ∧
    stateHash (seg_Link segment) = inr H2 ∧
    GetLinkHashString segment = Bytes32_String H2.
Proof.
  eexists. split; [vm_compute; reflexivity|].
  apply (X6_GetSegment_link_hashes_to_its_key stateHash S3 H2).
  - unfold S3, S2, S1, S0. repeat constructor.
  - vm_compute. reflexivity.
Defined.

Lemma X7_failed_write_witness :
  store_after (CreateLink stateHash S3 (root "" "m9")) = S3 ∧
  sent (CreateLink stateHash S3 (root "" "m9")) = [] ∧
  store_after (AddEvidence (store_after (AddEvidence S3 H1 E1)) H1 E2) =
    store_after (AddEvidence S3 H1 E1).
Proof.
  destruct (X7_failed_write_changes_nothing stateHash S3 (root "" "m9") H1 E1)
    as [Wl _].
  destruct (X7_failed_write_changes_nothing stateHash
              (store_after (AddEvidence S3 H1 E1)) L1 H1 E2) as [_ We].
  destruct Wl as (_ & Ws & Wt); [vm_compute; discriminate|].
  destruct We as (Wa & _); [vm_compute; discriminate|].
  by split_and!.
Defined.

Lemma X8_evidence_first_witness :
  returned (AddEvidence S0 H1 E1) = None ∧
  GetSegment (store_after (AddEvidence S0 H1 E1)) H1 = (None, None) ∧
  GetSegment
    (store_after (CreateLink stateHash (store_after (AddEvidence S0 H1 E1)) L1))
    H1 =
    (Some {| seg_Link := L1;
             seg_Meta := {| meta_Evidences := mk_slice [E1];
                            meta_LinkHash := "4c31" |} |}, None).
Proof.
  pose proof (X8_evidence_may_precede_its_link stateHash S0 L1 H1 E1) as W.
  cbv zeta in W.
  destruct W as (Wr & _ & _ & Ws); [vm_compute; reflexivity|reflexivity|].
  split_and!; [exact Wr|vm_compute; reflexivity|exact Ws].
Defined.

Lemma X9_nothing_removed_witness :
  is_Some (GetSegment
             (runOps stateHash S1
                [OpCreateLink L2; OpSetValue K1 V1; OpAddEvidence H1 E1;
                 OpDeleteValue K1; OpCreateLink L1]) H1).1.
Proof.
  apply (X9_nothing_is_removed stateHash S1).
  vm_compute. eexists. reflexivity.
Defined.

Lemma X10_GetMapIDs_witness :
  StronglySorted stringLt (sortedMapIDs elements processOf S3 anyMap) ∧
  "m2" ∈ sortedMapIDs elements processOf S3 anyMap.
Proof.
  destruct (X10_GetMapIDs_sorted_matching_maps elements
              (λ s, reflexivity (elements s)) processOf page S3 anyMap)
    as (_ & Wsorted & Wmem).
  split; [exact Wsorted|]. apply Wmem.
  exists {["4c33"]}, "4c33", L3. split_and!; [vm_compute; reflexivity| |
    vm_compute; reflexivity|reflexivity].
  by apply elem_of_singleton.
Defined.

Lemma X11_order_irrelevant_witness :
  GetMapIDs (λ s, reverse (elements s)) processOf page S3 anyMap =
    GetMapIDs elements processOf page S3 anyMap.
Proof.
  apply X11_GetMapIDs_order_irrelevant.
  - intros s. apply reverse_Permutation.
  - intros s. reflexivity.
Defined.

Lemma X12_no_map_missed_witness :
  "m1" ∈ sortedMapIDs elements processOf S3 anyMap.
Proof.
  apply (X12_GetMapIDs_misses_no_map elements (λ s, reflexivity (elements s))
           processOf stateHash S3 anyMap "4c32" L2).
  - unfold S3, S2, S1, S0. repeat constructor.
  - vm_compute. reflexivity.
  - reflexivity.
Defined.



Lemma X15_mock_witness :
  storetesting.recorded
    (storetesting.mockGetSegment (storetesting.calls mock0 someCalls))
    [Some H1; None; Some H2] ∧
  storetesting.CalledCount
    (storetesting.mockGetSegment (storetesting.calls mock0 someCalls)) = 3%Z ∧
  storetesting.LastCalledWith
    (storetesting.mockGetSegment (storetesting.calls mock0 someCalls)) = Some H2.
Proof.
  pose proof (X15_mock_records_its_calls unit unit mock0 someCalls) as W.
  cbv zeta in W.
  destruct W as (_ & _ & [W _] & _); [by vm_compute..|].
  split; [exact W|]. by vm_compute.
Defined.

Lemma X16_map_listed_witness :
  "m2" ∈ sortedMapIDs elements processOf
           (store_after (CreateLink stateHash S2 L3)) anyMap.
Proof.
  apply (X16_CreateLink_then_GetMapIDs stateHash elements
           (λ s, reflexivity (elements s)) processOf S2 L3 H3 anyMap);
    reflexivity.
Defined.

Lemma X17_New_store_witness :
  GetSegment (New cfg) H1 = (None, None) ∧
  FindSegments elements (New cfg) noFilter = ([], None) ∧
  GetMapIDs elements processOf page (New cfg) anyMap = (page {| Offset := 0; Limit := 10 |} [], None).
Proof.
  destruct (X17_New_store_is_empty elements (λ s, reflexivity (elements s))
              processOf page cfg H1 K1 noFilter anyMap)
    as (Wseg & _ & _ & Wfind & Wmaps).
  by split_and!.
Defined.

End MoreExamples.
